(** * NeuroCrypto-Analyst: the indicator engine, the scorer, the backtest,
      the fetch cache and the streaming merge, embedded and verified.

    Sources embedded here:
    - [src/services/technicalService.ts]: [fetchCryptoData],
      [enrichDataWithIndicators], [fetchMarketDepth], [generateHistory],
      [calculateSMA], [calculateStdDev], [calculateRSI], [calculateATR],
      [performTechnicalAnalysis], [predictSignalXGBoost], [runBacktest];
    - [src/components/TechnicalDashboard.tsx]: [updateMarketData] and the
      [ws.onmessage] handler;
    - the interfaces [ChartDataPoint], [TechnicalIndicators], [MLPrediction],
      [BacktestResult] of the types module.

    Numbers.  A JavaScript [number] is modelled as a real number: [+], [-],
    [*], [/], [Math.sqrt], [Math.pow], [Math.abs], [Math.min], [Math.max] are
    the exact operations of [R].  Rounding, and [NaN] or infinite inputs, are
    outside the model.  The one quotient whose divisor the source neither
    tests nor keeps away from zero, the band width of the scorer, is a
    [Quotient]: finite, infinite or [NaN], as the division of two finite
    numbers gives it.  For the other quotients, a theorem whose conclusion
    depends on the value carries the hypothesis that keeps the divisor away
    from zero, wherever the source does not test it itself.  [Math.random()]
    and [Date.now()] are inputs of the functions that call them. *)

From Stdlib Require Import Reals Lra Lia List ZArith.
From stdpp Require Import gmap strings list.

Local Open Scope R_scope.

(** ** Comparisons of numbers, as booleans *)

Definition rgt (a b : R) : bool := if Rgt_dec a b then true else false.
Definition rlt (a b : R) : bool := if Rlt_dec a b then true else false.
Definition rge (a b : R) : bool := if Rge_dec a b then true else false.
Definition req (a b : R) : bool := if Req_dec_T a b then true else false.

(** ** Quotients with an unguarded divisor *)

(** What [a / b] evaluates to for two finite numbers: the real quotient when
    [b] is not zero; for a zero divisor an infinity of the sign of [a], and
    [NaN] for [0 / 0].  The zero of [R] stands for the positive zero, which
    is what the sentinel [0] of a short window and a sum that cancels are. *)
Inductive Quotient :=
  | Finite (x : R)
  | PlusInfinity
  | MinusInfinity
  | NotANumber.

Definition divide (a b : R) : Quotient :=
  if req b 0 then
    if rgt a 0 then PlusInfinity
    else if rlt a 0 then MinusInfinity
    else NotANumber
  else Finite (a / b).

(** [q < c] for a finite [c]: a comparison with [NaN] is false. *)
Definition lessThan (q : Quotient) (c : R) : bool :=
  match q with
  | Finite x => rlt x c
  | MinusInfinity => true
  | PlusInfinity | NotANumber => false
  end.

(** ** Arrays of numbers *)

(** [arr.reduce((a, b) => a + b, 0)] *)
Definition total (l : list R) : R := fold_left Rplus l 0.

(** [arr.slice(-n)], also [arr.slice(arr.length - n)] when [n <= arr.length]:
    the last [n] elements, the whole array when it is shorter. *)
Definition slice_last {A} (n : nat) (l : list A) : list A :=
  drop (length l - n) l.

(** [arr.slice(0, n)] *)
Definition slice_to {A} (n : nat) (l : list A) : list A := take n l.

(** ** Data model (types module) *)

Record ChartDataPoint := mkPoint {
  date : string;
  price : R;
  volume : option R;
  high : option R;
  low : option R;
  sma20 : option R;
  sma50 : option R;
  bollingerUpper : option R;
  bollingerLower : option R
}.

Inductive Trend := UP | DOWN | SIDEWAYS.

Definition trendEq (a b : Trend) : bool :=
  match a, b with
  | UP, UP | DOWN, DOWN | SIDEWAYS, SIDEWAYS => true
  | _, _ => false
  end.
Inductive NaiveSignal := N_BUY | N_SELL | NEUTRAL.
Inductive Signal := BUY | SELL | HOLD.

Record Macd := mkMacd { macd_value : R; macd_signal : R; histogram : R }.
Record Bollinger := mkBollinger { upper : R; middle : R; lower : R }.

Record TechnicalIndicators := mkIndicators {
  rsi : R;
  ind_sma20 : R;
  ind_sma50 : R;
  macd : Macd;
  bollinger : Bollinger;
  atr : R;
  trend : Trend;
  ind_signal : NaiveSignal
}.

Record Features := mkFeatures {
  rsiNormalized : R;
  trendStrength : R;
  volatility : Quotient
}.

Record MLPrediction := mkPrediction {
  signal : Signal;
  confidence : R;
  features : Features
}.

Record BacktestResult := mkBacktestResult {
  initialBalance : R;
  finalBalance : R;
  totalReturn : R;
  res_trades : nat;
  res_winningTrades : nat;
  res_maxDrawdown : R;
  res_equityCurve : list ChartDataPoint
}.

(** ** Whole-series enrichment: [enrichDataWithIndicators] *)

(** The Bollinger block of the callback: both bands or neither. *)
Definition bands (slice : list R) (sma20 : option R) : option R * option R :=
  match sma20 with
  | Some m =>
      if (20 <=? length slice)%nat then
        let periodSlice := slice_last 20 slice in
        let squaredDiffs := (fun val => (val - m) ^ 2) <$> periodSlice in
        let stdDev := sqrt (total squaredDiffs / 20) in
        (Some (m + stdDev * 2), Some (m - stdDev * 2))
      else (None, None)
  | None => (None, None)
  end.

(** The callback of [data.map((point, index) => ...)]. *)
Definition enrichPoint (prices : list R) (index : nat) (point : ChartDataPoint)
  : ChartDataPoint :=
  let slice := slice_to (index + 1) prices in
  let s20 :=
    if (20 <=? length slice)%nat then Some (total (slice_last 20 slice) / 20)
    else None in
  let s50 :=
    if (50 <=? length slice)%nat then Some (total (slice_last 50 slice) / 50)
    else None in
  let ul := bands slice s20 in
  {| date := date point; price := price point; volume := volume point;
     high := high point; low := low point;
     sma20 := s20; sma50 := s50;
     bollingerUpper := fst ul; bollingerLower := snd ul |}.

Definition enrichDataWithIndicators (data : list ChartDataPoint)
  : list ChartDataPoint :=
  let prices := price <$> data in
  imap (enrichPoint prices) data.

(** ** Snapshot indicators *)

Definition calculateSMA (data : list R) (period : nat) : R :=
  if (length data <? period)%nat then 0
  else
    let slice := slice_last period data in
    total slice / INR period.

Definition calculateStdDev (data : list R) (period : nat) : R :=
  if (length data <? period)%nat then 0
  else
    let sma := calculateSMA data period in
    let slice := slice_last period data in
    let squaredDiffs := (fun val => (val - sma) ^ 2) <$> slice in
    let avgSquaredDiff := total squaredDiffs / INR period in
    sqrt avgSquaredDiff.

(** [prices[i]]; every read below is guarded by a length test of the source,
    so the default is never observed. *)
Definition at_ (prices : list R) (i : nat) : R := nth i prices 0.

(** One turn of the loop of [calculateRSI]; the accumulator is
    [(gains, losses)]. *)
Definition rsiStep (prices : list R) (acc : R * R) (i : nat) : R * R :=
  let diff := at_ prices i - at_ prices (i - 1) in
  if rge diff 0 then (fst acc + diff, snd acc)
  else (fst acc, snd acc - diff).

Definition rsiLoop (prices : list R) (period : nat) : R * R :=
  fold_left (rsiStep prices) (seq (length prices - period) period) (0, 0).

Definition calculateRSI (prices : list R) (period : nat) : R :=
  if (length prices <? period + 1)%nat then 50
  else
    let gl := rsiLoop prices period in
    let avgGain := fst gl / INR period in
    let avgLoss := snd gl / INR period in
    if req avgLoss 0 then 100
    else
      let rs := avgGain / avgLoss in
      100 - 100 / (1 + rs).

(** [data[i]] on candles, read only under the loop guards of the source. *)
Definition noPoint : ChartDataPoint :=
  mkPoint "" 0 None None None None None None None.

Definition pointAt (data : list ChartDataPoint) (i : nat) : ChartDataPoint :=
  nth i data noPoint.

(** [x || p] on an optional number: [undefined] and [0] are falsy. *)
Definition orElse (x : option R) (p : R) : R :=
  match x with
  | Some h => if req h 0 then p else h
  | None => p
  end.

Definition atrStep (data : list ChartDataPoint) (trSum : R) (i : nat) : R :=
  let high_ := orElse (high (pointAt data i)) (price (pointAt data i)) in
  let low_ := orElse (low (pointAt data i)) (price (pointAt data i)) in
  let prevClose := price (pointAt data (i - 1)) in
  let tr := Rmax (Rmax (high_ - low_) (Rabs (high_ - prevClose)))
                 (Rabs (low_ - prevClose)) in
  trSum + tr.

Definition calculateATR (data : list ChartDataPoint) (period : nat) : R :=
  if (length data <? period + 1)%nat then 0
  else
    fold_left (atrStep data) (seq (length data - period) period) 0
    / INR period.

Definition performTechnicalAnalysis (data : list ChartDataPoint)
  : TechnicalIndicators :=
  let prices := price <$> data in
  let rsi_ := calculateRSI prices 14 in
  let sma20_ := calculateSMA prices 20 in
  let sma50_ := calculateSMA prices 50 in
  let stdDev20 := calculateStdDev prices 20 in
  let bollinger_ :=
    {| middle := sma20_;
       upper := sma20_ + stdDev20 * 2;
       lower := sma20_ - stdDev20 * 2 |} in
  let atr_ := calculateATR data 14 in
  let ema12 := calculateSMA prices 12 in
  let ema26 := calculateSMA prices 26 in
  let macdValue := ema12 - ema26 in
  let trend_ :=
    if rgt sma20_ sma50_ then UP
    else if rlt sma20_ sma50_ then DOWN
    else SIDEWAYS in
  let signal_ :=
    if rlt rsi_ 30 && trendEq trend_ UP then N_BUY
    else if rgt rsi_ 70 && trendEq trend_ DOWN then N_SELL
    else NEUTRAL in
  {| rsi := rsi_;
     ind_sma20 := sma20_;
     ind_sma50 := sma50_;
     macd := {| macd_value := macdValue;
                macd_signal := macdValue * 0.9;
                histogram := macdValue * 0.1 |};
     bollinger := bollinger_;
     atr := atr_;
     trend := trend_;
     ind_signal := signal_ |}.

(** ** The scorer: [predictSignalXGBoost] *)

Definition trendScoreOf (indicators : TechnicalIndicators) : R :=
  match trend indicators with
  | UP => 1
  | DOWN => -1
  | SIDEWAYS => 0
  end.

Definition bbWidthOf (indicators : TechnicalIndicators) : Quotient :=
  divide (upper (bollinger indicators) - lower (bollinger indicators))
         (middle (bollinger indicators)).

(** The value of the local variable [score] after the four nodes, written as
    the source updates it. *)
Definition scoreOf (indicators : TechnicalIndicators) (currentPrice : R) : R :=
  let trendScore := trendScoreOf indicators in
  let bbWidth := bbWidthOf indicators in
  let score := 0 in
  let score :=
    if req trendScore 1 && rgt currentPrice (ind_sma50 indicators)
    then score + 30 else score in
  let score :=
    if req trendScore (-1) && rlt currentPrice (ind_sma50 indicators)
    then score - 30 else score in
  let score := if rlt (rsi indicators) 30 then score + 40 else score in
  let score := if rgt (rsi indicators) 70 then score - 40 else score in
  let score :=
    if lessThan bbWidth 0.05 then
      let score :=
        if rgt currentPrice (upper (bollinger indicators))
        then score + 20 else score in
      if rlt currentPrice (lower (bollinger indicators))
      then score - 20 else score
    else score in
  if rgt (histogram (macd indicators)) 0 then score + 10 else score - 10.

(** [random] stands for the value returned by the one call of
    [Math.random()]. *)
Definition predictSignalXGBoost (indicators : TechnicalIndicators)
  (currentPrice : R) (random : R) : MLPrediction :=
  let rsiNorm := (rsi indicators - 50) / 50 in
  let bbWidth := bbWidthOf indicators in
  let trendScore := trendScoreOf indicators in
  let score := scoreOf indicators currentPrice in
  let confidence0 := Rmin (Rabs score) 98 in
  let confidence1 := confidence0 - random * 5 in
  let signal_ :=
    if rgt score 25 then BUY
    else if rlt score (-25) then SELL
    else HOLD in
  {| signal := signal_;
     confidence := Rmax 0 confidence1;
     features := {| rsiNormalized := rsiNorm;
                    trendStrength := trendScore;
                    volatility := bbWidth |} |}.

(** ** The backtest: [runBacktest] *)

(** The mutable locals of [runBacktest]. *)
Record Backtest := mkBacktest {
  balance : R;
  shares : R;
  trades : nat;
  winningTrades : nat;
  maxBalance : R;
  maxDrawdown : R;
  equityCurve : list ChartDataPoint
}.

Definition startIdx : nat := 50.

(** [{ date: data[i].date, price: currentEquity }] *)
Definition equityPoint (label : string) (currentEquity : R) : ChartDataPoint :=
  mkPoint label currentEquity None None None None None None None.

(** The body of the loop at index [i]; [random] is the value that
    [Math.random()] returns inside this turn's call of the scorer. *)
Definition backtestStep (data : list ChartDataPoint) (random : nat -> R)
  (st : Backtest) (i : nat) : Backtest :=
  let historySlice := slice_to (i + 1) data in
  let indicators := performTechnicalAnalysis historySlice in
  let currentPrice := price (pointAt data i) in
  let prediction := predictSignalXGBoost indicators currentPrice (random i) in
  (* trading logic: (balance, shares, trades, winningTrades) *)
  let traded :=
    if req (shares st) 0 then
      match signal prediction with
      | BUY =>
          if rgt (confidence prediction) 60
          then (0, balance st / currentPrice, S (trades st), winningTrades st)
          else (balance st, shares st, trades st, winningTrades st)
      | _ => (balance st, shares st, trades st, winningTrades st)
      end
    else
      match signal prediction with
      | SELL =>
          let balance' := shares st * currentPrice in
          (balance', 0, trades st,
           if rgt balance' (maxBalance st) then S (winningTrades st)
           else winningTrades st)
      | _ => (balance st, shares st, trades st, winningTrades st)
      end in
  let '(balance1, shares1, trades1, winning1) := traded in
  let currentEquity := balance1 + shares1 * currentPrice in
  let maxBalance1 :=
    if rgt currentEquity (maxBalance st) then currentEquity
    else maxBalance st in
  let dd := (maxBalance1 - currentEquity) / maxBalance1 in
  let maxDrawdown1 := if rgt dd (maxDrawdown st) then dd else maxDrawdown st in
  {| balance := balance1;
     shares := shares1;
     trades := trades1;
     winningTrades := winning1;
     maxBalance := maxBalance1;
     maxDrawdown := maxDrawdown1;
     equityCurve :=
       equityCurve st ++ [equityPoint (date (pointAt data i)) currentEquity] |}.

Definition backtestInit (initialBalance : R) : Backtest :=
  {| balance := initialBalance; shares := 0; trades := 0; winningTrades := 0;
     maxBalance := initialBalance; maxDrawdown := 0; equityCurve := [] |}.

(** The locals after the first [n] turns of
    [for (let i = startIdx; i < data.length; i++)]. *)
Definition backtestAfter (data : list ChartDataPoint) (random : nat -> R)
  (initialBalance : R) (n : nat) : Backtest :=
  fold_left (backtestStep data random) (seq startIdx n)
            (backtestInit initialBalance).

Definition runBacktest (data : list ChartDataPoint) (initialBalance : R)
  (random : nat -> R) : BacktestResult :=
  let st := backtestAfter data random initialBalance (length data - startIdx) in
  let finalEquity :=
    match last (equityCurve st) with
    | Some p => price p
    | None => initialBalance
    end in
  let totalReturn_ := (finalEquity - initialBalance) / initialBalance * 100 in
  {| initialBalance := initialBalance;
     finalBalance := finalEquity;
     totalReturn := totalReturn_;
     res_trades := trades st;
     res_winningTrades := winningTrades st;
     res_maxDrawdown := maxDrawdown st * 100;
     res_equityCurve := equityCurve st |}.

(** ** The fetch cache: [fetchCryptoData] *)

Inductive Timeframe := TF_1m | TF_5m | TF_15m | TF_1h | TF_4h | TF_1d | TF_1w.

Definition timeframeString (tf : Timeframe) : string :=
  match tf with
  | TF_1m => "1m" | TF_5m => "5m" | TF_15m => "15m" | TF_1h => "1h"
  | TF_4h => "4h" | TF_1d => "1d" | TF_1w => "1w"
  end.

Inductive MarketType := SPOT | FUTURES.

Definition marketTypeString (m : MarketType) : string :=
  match m with SPOT => "SPOT" | FUTURES => "FUTURES" end.

Record CacheEntry := mkEntry {
  timestamp : Z;
  data : list ChartDataPoint
}.

(** [60 * 1000] milliseconds *)
Definition CACHE_DURATION : Z := 60 * 1000.

(** What [fetch(url)] is asked for: the host is chosen by the market type, the
    query string holds the pair, the interval and the limit. *)
Record Request := mkRequest {
  req_market : MarketType;
  req_pair : string;
  req_interval : Timeframe;
  req_limit : nat
}.

(** The collaborators of [fetchCryptoData] that are not part of the engine. *)
Record Env := mkEnv {
  (** [fetch(url)] at time [now], followed by [response.json()] and the
      mapping of the rows to candles: [None] when any of them throws or the
      response is not ok. *)
  fetch : Z -> Request -> option (list ChartDataPoint);
  (** [generateHistory(basePrice, days)], which reads the clock and
      [Math.random()]. *)
  generateHistory : Z -> R -> R -> list ChartDataPoint;
  (** [String.prototype.toUpperCase] *)
  toUpperCase : string -> string
}.

(** The module state: the cache object, and the log of the requests handed
    to [fetch] so far (newest first). *)
Record World := mkWorld {
  DATA_CACHE : gmap string CacheEntry;
  requests : list Request
}.

Definition cacheKey (symbol : string) (interval : Timeframe)
  (marketType : MarketType) : string :=
  symbol +:+ "-" +:+ timeframeString interval +:+ "-"
  +:+ marketTypeString marketType.

Definition basePriceMap : list (string * R) :=
  [("BTC", 92000); ("ETH", 3400); ("SOL", 145); ("BNB", 590); ("XRP", 0.60);
   ("DOGE", 0.15); ("ADA", 0.45); ("AVAX", 35); ("DOT", 7.5); ("LINK", 14)]%string.

Fixpoint assoc (k : string) (l : list (string * R)) : option R :=
  match l with
  | [] => None
  | (k', v) :: l' => if String.eqb k k' then Some v else assoc k l'
  end.

(** The cache test of the source:
    [DATA_CACHE[cacheKey] && (now - DATA_CACHE[cacheKey].timestamp < CACHE_DURATION)] *)
Definition cacheHit (w : World) (key : string) (now : Z) : option CacheEntry :=
  match DATA_CACHE w !! key with
  | Some entry =>
      if (now - timestamp entry <? CACHE_DURATION)%Z then Some entry else None
  | None => None
  end.

(** The request behind [url]: the pair is [symbol.toUpperCase() + "USDT"]. *)
Definition requestFor (env : Env) (symbol : string) (interval : Timeframe)
  (limit : nat) (marketType : MarketType) : Request :=
  mkRequest marketType (toUpperCase env symbol +:+ "USDT") interval limit.

Definition fetchCryptoData (env : Env) (symbol : string) (interval : Timeframe)
  (limit : nat) (marketType : MarketType) (now : Z) (w : World)
  : list ChartDataPoint * World :=
  let key := cacheKey symbol interval marketType in
  match cacheHit w key now with
  | Some entry => (data entry, w)
  | None =>
      let request := requestFor env symbol interval limit marketType in
      let requests' := request :: requests w in
      match fetch env now request with
      | Some rows =>
          let enrichedData := enrichDataWithIndicators rows in
          (enrichedData,
           {| DATA_CACHE :=
                <[key := mkEntry now enrichedData]> (DATA_CACHE w);
              requests := requests' |})
      | None =>
          let basePrice := orElse (assoc (toUpperCase env symbol) basePriceMap) 100 in
          let simData := generateHistory env now basePrice (INR limit / 24) in
          (enrichDataWithIndicators simData,
           {| DATA_CACHE := DATA_CACHE w; requests := requests' |})
      end
  end.

(** ** The streaming handler: [ws.onmessage] of the dashboard *)

(** The [k] object of a kline message, its numeric strings already read by
    [parseFloat]. *)
Record Kline := mkKline {
  k_t : Z;
  k_c : R;
  k_h : R;
  k_l : R;
  k_v : R
}.

Record Message := mkMessage {
  msg_e : string;
  msg_k : Kline
}.

(** The React state the handler reads and writes. *)
Record Dashboard := mkDashboard {
  history : list ChartDataPoint;
  indicators : option TechnicalIndicators;
  mlPrediction : option MLPrediction;
  backtestResult : option BacktestResult
}.

(** The recompute steps of the handler, logged in the order they run. *)
Inductive Recompute := Enrichment | Snapshot | Prediction | BacktestRun.

(** [newCandle] *)
Definition newCandleOf (formattedDate : string) (k : Kline) : ChartDataPoint :=
  {| date := formattedDate; price := k_c k; volume := Some (k_v k);
     high := Some (k_h k); low := Some (k_l k);
     sma20 := None; sma50 := None;
     bollingerUpper := None; bollingerLower := None |}.

(** [{ ...lastCandle, ...newCandle }]: the five keys of [newCandle] win, the
    derived keys of [lastCandle] stay. *)
Definition spreadOver (lastCandle newCandle : ChartDataPoint) : ChartDataPoint :=
  {| date := date newCandle; price := price newCandle;
     volume := volume newCandle; high := high newCandle; low := low newCandle;
     sma20 := sma20 lastCandle; sma50 := sma50 lastCandle;
     bollingerUpper := bollingerUpper lastCandle;
     bollingerLower := bollingerLower lastCandle |}.

(** [newHistory] after the update-or-append block, for a non-empty [prev]. *)
Definition updateOrAppend (prev : list ChartDataPoint) (formattedDate : string)
  (k : Kline) : list ChartDataPoint :=
  let newHistory := prev in
  let lastCandle := pointAt newHistory (length newHistory - 1) in
  let newCandle := newCandleOf formattedDate k in
  if String.eqb (date lastCandle) formattedDate then
    <[(length newHistory - 1)%nat := spreadOver lastCandle newCandle]> newHistory
  else
    let newHistory := newHistory ++ [newCandle] in
    if (200 <? length newHistory)%nat then tail newHistory else newHistory.

(** The handler.  [formatDate] is the locale-dependent label of a timestamp;
    [random] feeds the scorer call of the handler, [randoms] those of the
    backtest.  The result is the next state and the recompute steps run. *)
Definition onmessage (formatDate : Z -> string) (msg : Message)
  (random : R) (randoms : nat -> R) (st : Dashboard)
  : Dashboard * list Recompute :=
  if String.eqb (msg_e msg) "kline" then
    let k := msg_k msg in
    let prev := history st in
    if (length prev =? 0)%nat then (st, [])
    else
      let formattedDate := formatDate (k_t k) in
      let newHistory := updateOrAppend prev formattedDate k in
      let enrichedHistory := enrichDataWithIndicators newHistory in
      let newDashboardIndicators := performTechnicalAnalysis enrichedHistory in
      let currentPrice :=
        price (pointAt enrichedHistory (length enrichedHistory - 1)) in
      let newPred :=
        predictSignalXGBoost newDashboardIndicators currentPrice random in
      let newBt := runBacktest enrichedHistory 10000 randoms in
      ({| history := enrichedHistory;
          indicators := Some newDashboardIndicators;
          mlPrediction := Some newPred;
          backtestResult := Some newBt |},
       [Enrichment; Snapshot; Prediction; BacktestRun])
  else (st, []).

(** ** The specification's own wording, for comparison with the code *)

(** [prices[i] - prices[i - 1]] *)
Definition diffAt (prices : list R) (i : nat) : R :=
  at_ prices i - at_ prices (i - 1).

(** The transitions of a price series: [p1 - p0], [p2 - p1], ... *)
Fixpoint deltas (prices : list R) : list R :=
  match prices with
  | a :: rest =>
      match rest with
      | b :: _ => (b - a) :: deltas rest
      | [] => []
      end
  | [] => []
  end.

(** A positive delta counts as a gain, a negative one as a loss of its
    absolute value. *)
Definition gainOf (d : R) : R := if rgt d 0 then d else 0.
Definition lossOf (d : R) : R := if rlt d 0 then Rabs d else 0.

(** Simple averages over the last [period] transitions. *)
Definition avgGainSpec (prices : list R) (period : nat) : R :=
  total (gainOf <$> slice_last period (deltas prices)) / INR period.
Definition avgLossSpec (prices : list R) (period : nat) : R :=
  total (lossOf <$> slice_last period (deltas prices)) / INR period.

(** The four nodes of the scorer, as the rule set words them. *)
Definition trendNode (ind : TechnicalIndicators) (price_ : R) : R :=
  (if trendEq (trend ind) UP && rgt price_ (ind_sma50 ind) then 30 else 0)
  + (if trendEq (trend ind) DOWN && rlt price_ (ind_sma50 ind) then -30 else 0).

Definition meanReversionNode (ind : TechnicalIndicators) : R :=
  (if rlt (rsi ind) 30 then 40 else 0) + (if rgt (rsi ind) 70 then -40 else 0).

Definition squeezeNode (ind : TechnicalIndicators) (price_ : R) : R :=
  let b := bollinger ind in
  if lessThan (divide (upper b - lower b) (middle b)) 0.05 then
    (if rgt price_ (upper b) then 20 else 0)
    + (if rlt price_ (lower b) then -20 else 0)
  else 0.

Definition momentumNode (ind : TechnicalIndicators) : R :=
  if rgt (histogram (macd ind)) 0 then 10 else -10.

(** The [period] samples that end at index [i]. *)
Definition window (period i : nat) (prices : list R) : list R :=
  take period (drop (i + 1 - period) prices).

(** Population standard deviation of a 20-sample window around its mean. *)
Definition deviation20 (m : R) (w : list R) : R :=
  sqrt (total ((fun val => (val - m) ^ 2) <$> w) / 20).

(** The stored candle proper: label, close, volume, high, low. *)
Definition candleOf (p : ChartDataPoint)
  : string * R * option R * option R * option R :=
  (date p, price p, volume p, high p, low p).

(** ** Sample inputs *)

(** A one-candle and a twenty-candle series, used to run the theorems. *)
Definition flatPoint (label : string) (p : R) : ChartDataPoint :=
  mkPoint label p None None None None None None None.

Definition flat20 : list ChartDataPoint := replicate 20 (flatPoint "t" 1).

Definition flat12 : list ChartDataPoint := replicate 12 (flatPoint "t" 1).

Definition zigzag15 : list R := [1; 2; 1; 2; 1; 2; 1; 2; 1; 2; 1; 2; 1; 2; 1].

(** A snapshot whose bands are ordered around a negative middle, and one
    around a positive middle. *)
Definition negativeMiddle : TechnicalIndicators :=
  {| rsi := 50; ind_sma20 := -2; ind_sma50 := -2;
     macd := mkMacd 0 0 0;
     bollinger := {| upper := -1; middle := -2; lower := -3 |};
     atr := 0; trend := SIDEWAYS; ind_signal := NEUTRAL |}.

Definition positiveMiddle : TechnicalIndicators :=
  {| rsi := 20; ind_sma20 := 2; ind_sma50 := 1;
     macd := mkMacd 1 0.9 0.1;
     bollinger := {| upper := 3; middle := 2; lower := 1 |};
     atr := 0; trend := UP; ind_signal := N_BUY |}.

(** A source that always answers with no rows, an identity upper-casing (the
    sample symbol is upper case already), and a cache that holds one entry
    stamped at time 0. *)
Definition quietEnv : Env :=
  {| fetch := fun _ _ => Some [];
     generateHistory := fun _ _ _ => [];
     toUpperCase := fun s => s |}.

Definition stampedWorld : World :=
  {| DATA_CACHE := {[ cacheKey "BTC" TF_1h FUTURES := mkEntry 0 [] ]};
     requests := [] |}.

(** The dashboard before its first history, a kline tick, and a stored
    history of 201 candles labelled ["a"]. *)
Definition emptyDashboard : Dashboard := mkDashboard [] None None None.

Definition tick : Message := mkMessage "kline" (mkKline 0 1 1 1 1).

(** A [formatDate] that labels every timestamp alike, and a run of
    [Math.random()] that always returns 0. *)
Definition labelled (label : string) : Z -> string := fun _ => label.

Definition noRandom : nat -> R := fun _ => 0.

Definition overlong : Dashboard :=
  mkDashboard (replicate 201 (flatPoint "a" 1)) None None None.

Definition three : Dashboard :=
  mkDashboard [flatPoint "a" 1; flatPoint "b" 2; flatPoint "c" 3]
              None None None.

(** ** Further parts of the engine *)

(** The [tr] of the bar at index [i], as one turn of the loop of
    [calculateATR] adds it. *)
Definition trueRangeAt (s : list ChartDataPoint) (i : nat) : R :=
  atrStep s 0 i.


(** Every cached series is one that enrichment leaves as it is. *)
Definition cacheEnriched (w : World) : Prop :=
  forall (k : string) (e : CacheEntry),
    DATA_CACHE w !! k = Some e -> enrichDataWithIndicators (data e) = data e.

(** What [cacheKey] puts after the symbol. *)
Definition keySuffix (interval : Timeframe) (marketType : MarketType) : string :=
  "-" +:+ timeframeString interval +:+ "-" +:+ marketTypeString marketType.

(** ** Simulated history: [generateHistory] *)

(** [Math.floor] *)
Definition floor (x : R) : R := IZR (Int_part x).

(** The loop [for (let i = days * 24; i >= 0; i--)], from the value [i] on:
    [turn] counts the turns done, so that the four [Math.random()] calls of
    a turn (change, high, low, volume, in that order) read [random] at
    [4 * turn] to [4 * turn + 3]; [label i] is the text built from the clock
    set back by [i] hours.  [fuel] bounds the number of turns; the function
    below gives it as many as the guard [i >= 0] allows. *)
Fixpoint historyLoop (fuel : nat) (label : R -> string) (random : nat -> R)
  (turn : nat) (i currentPrice : R) : list ChartDataPoint :=
  match fuel with
  | O => []
  | S fuel' =>
      if rge i 0 then
        let volatility := 0.02 in
        let change := 1 + (random (4 * turn)%nat * volatility * 2 - volatility) in
        let dailyVol := currentPrice * volatility in
        let high_ :=
          currentPrice * change + random (4 * turn + 1)%nat * dailyVol in
        let low_ :=
          currentPrice * change - random (4 * turn + 2)%nat * dailyVol in
        let currentPrice' := currentPrice * change in
        {| date := label i;
           price := currentPrice';
           volume := Some (floor (random (4 * turn + 3)%nat * 1000000));
           high := Some (Rmax high_ currentPrice');
           low := Some (Rmin low_ currentPrice');
           sma20 := None; sma50 := None;
           bollingerUpper := None; bollingerLower := None |}
        :: historyLoop fuel' label random (S turn) (i - 1) currentPrice'
      else []
  end.

(** [generateHistory(basePrice, days)]; the name [generateHistory] is the
    field of [Env] through which [fetchCryptoData] calls it. *)
Definition generateHistoryOf (label : R -> string) (random : nat -> R)
  (basePrice days : R) : list ChartDataPoint :=
  historyLoop (Z.to_nat (up (days * 24))) label random 0 (days * 24) basePrice.

(** An environment whose fallback generator is the one of the source. *)
Definition simulatedEnv (fetch_ : Z -> Request -> option (list ChartDataPoint))
  (toUpperCase_ : string -> string) (label : Z -> R -> string)
  (random : Z -> nat -> R) : Env :=
  {| fetch := fetch_;
     generateHistory := fun now basePrice days =>
       generateHistoryOf (label now) (random now) basePrice days;
     toUpperCase := toUpperCase_ |}.

(** ** Simulated order book: [fetchMarketDepth] *)

Inductive DepthSide := bid | ask.

Record MarketDepthItem := mkDepthItem {
  depth_price : R;
  amount : R;
  depth_total : R;
  depth_type : DepthSide
}.

(** One turn of the loop: a bid and an ask at level [i]; the two
    [Math.random()] calls of the turn read [random] at [2 * i] and
    [2 * i + 1]. *)
Definition depthStep (currentPrice : R) (random : nat -> R)
  (acc : list MarketDepthItem * list MarketDepthItem) (i : nat)
  : list MarketDepthItem * list MarketDepthItem :=
  (acc.1 ++ [{| depth_price := currentPrice * (1 - 0.001 * (INR i + 1));
                amount := random (2 * i)%nat * 10;
                depth_total := 0;
                depth_type := bid |}],
   acc.2 ++ [{| depth_price := currentPrice * (1 + 0.001 * (INR i + 1));
                amount := random (2 * i + 1)%nat * 10;
                depth_total := 0;
                depth_type := ask |}]).

(** The result is the pair [(bids, asks)]. *)
Definition fetchMarketDepth (currentPrice : R) (random : nat -> R)
  : list MarketDepthItem * list MarketDepthItem :=
  fold_left (depthStep currentPrice random) (seq 0 5) ([], []).

(** ** The dashboard's load: [updateMarketData] *)

(** The part of [updateMarketData] that reads and writes the four pieces of
    state of [Dashboard] and the fetch cache: [customData] is the imported
    series or [null]; [random] feeds the scorer call, [randoms] those of the
    backtest.  The feeds (on-chain metrics, order book), the AI insight and
    the [fetching] flag are other pieces of React state, written after these
    and never read back here. *)
Definition updateMarketData (env : Env) (customData : option (list ChartDataPoint))
  (symbol : string) (timeframe : Timeframe) (now : Z)
  (random : R) (randoms : nat -> R) (w : World) (st : Dashboard)
  : Dashboard * World :=
  let loaded :=
    match customData with
    | Some imported => (imported, w)
    | None => fetchCryptoData env symbol timeframe 200 FUTURES now w
    end in
  let data_ := loaded.1 in
  if (50 <? length data_)%nat then
    let newIndicators := performTechnicalAnalysis data_ in
    let currentPrice := price (pointAt data_ (length data_ - 1)) in
    let prediction := predictSignalXGBoost newIndicators currentPrice random in
    let btResult := runBacktest data_ 10000 randoms in
    ({| history := data_;
        indicators := Some newIndicators;
        mlPrediction := Some prediction;
        backtestResult := Some btResult |}, loaded.2)
  else (st, loaded.2).

(** What the dashboard publishes belongs to the history it stores: either
    nothing was ever loaded, or the history has more than 50 candles and the
    snapshot, the prediction and the backtest are those of that history. *)
Definition published (st : Dashboard) : Prop :=
  st = mkDashboard [] None None None
  \/ ((50 < length (history st))%nat
      /\ indicators st = Some (performTechnicalAnalysis (history st))
      /\ (exists random,
            mlPrediction st
            = Some (predictSignalXGBoost
                      (performTechnicalAnalysis (history st))
                      (price (pointAt (history st) (length (history st) - 1)))
                      random))
      /\ (exists randoms,
            backtestResult st = Some (runBacktest (history st) 10000 randoms))).

(** An imported series of 51 candles labelled ["a"], and the dashboard after
    loading it. *)
Definition imported51 : list ChartDataPoint := replicate 51 (flatPoint "a" 1).

Definition loadedDashboard : Dashboard :=
  (updateMarketData quietEnv (Some imported51) "BTC" TF_1h 0 0 noRandom
     stampedWorld emptyDashboard).1.

(** * Properties *)

(** ** Numbers *)

Lemma rgt_true a b : rgt a b = true <-> a > b.
Proof. unfold rgt. destruct (Rgt_dec a b); split; intros; congruence || auto. Qed.

Lemma rlt_true a b : rlt a b = true <-> a < b.
Proof. unfold rlt. destruct (Rlt_dec a b); split; intros; congruence || auto. Qed.

Lemma rge_true a b : rge a b = true <-> a >= b.
Proof. unfold rge. destruct (Rge_dec a b); split; intros; congruence || auto. Qed.

Lemma req_true a b : req a b = true <-> a = b.
Proof. unfold req. destruct (Req_dec_T a b); split; intros; congruence || auto. Qed.

Lemma rgt_false a b : rgt a b = false <-> a <= b.
Proof. unfold rgt. destruct (Rgt_dec a b); split; intros; try congruence; lra. Qed.

Lemma rlt_false a b : rlt a b = false <-> b <= a.
Proof. unfold rlt. destruct (Rlt_dec a b); split; intros; try congruence; lra. Qed.

Lemma rge_false a b : rge a b = false <-> a < b.
Proof. unfold rge. destruct (Rge_dec a b); split; intros; try congruence; lra. Qed.

Lemma req_false a b : req a b = false <-> a <> b.
Proof. unfold req. destruct (Req_dec_T a b); split; intros; congruence. Qed.

(** Case analysis on every comparison of the goal, each recorded as an
    inequality. *)
Ltac cmp_cases :=
  repeat match goal with
  | |- context [rgt ?a ?b] =>
      let E := fresh "E" in
      destruct (rgt a b) eqn:E;
      [apply rgt_true in E | apply rgt_false in E]
  | |- context [rlt ?a ?b] =>
      let E := fresh "E" in
      destruct (rlt a b) eqn:E;
      [apply rlt_true in E | apply rlt_false in E]
  | |- context [rge ?a ?b] =>
      let E := fresh "E" in
      destruct (rge a b) eqn:E;
      [apply rge_true in E | apply rge_false in E]
  | |- context [req ?a ?b] =>
      let E := fresh "E" in
      destruct (req a b) eqn:E;
      [apply req_true in E | apply req_false in E]
  end.

Lemma div_nonneg (a b : R) : 0 <= a -> 0 < b -> 0 <= a / b.
Proof.
  intros Ha Hb. apply Rmult_le_pos; [exact Ha|].
  left. apply Rinv_0_lt_compat, Hb.
Qed.

Lemma fold_Rplus_acc (l : list R) (a : R) :
  fold_left Rplus l a = a + total l.
Proof.
  unfold total. revert a.
  induction l as [|x l IH]; intros a; simpl.
  - lra.
  - rewrite (IH (a + x)), (IH (0 + x)). lra.
Qed.

Lemma total_nil : total [] = 0.
Proof. reflexivity. Qed.

Lemma total_cons x (l : list R) : total (x :: l) = x + total l.
Proof. unfold total at 1. simpl. rewrite fold_Rplus_acc. lra. Qed.

Lemma total_app (l1 l2 : list R) : total (l1 ++ l2) = total l1 + total l2.
Proof.
  induction l1 as [|x l1 IH]; simpl.
  - rewrite total_nil. lra.
  - rewrite !total_cons, IH. lra.
Qed.

Lemma total_nonneg (l : list R) : Forall (fun x => 0 <= x) l -> 0 <= total l.
Proof.
  induction 1 as [|x l Hx _ IH].
  - rewrite total_nil. lra.
  - rewrite total_cons. lra.
Qed.

(** ** Whole-series enrichment *)

Lemma enrich_length (s : list ChartDataPoint) :
  length (enrichDataWithIndicators s) = length s.
Proof. unfold enrichDataWithIndicators. apply length_imap. Qed.

Lemma enrich_lookup (s : list ChartDataPoint) (i : nat) :
  enrichDataWithIndicators s !! i = enrichPoint (price <$> s) i <$> s !! i.
Proof. unfold enrichDataWithIndicators. apply list_lookup_imap. Qed.

Lemma enrich_prices (s : list ChartDataPoint) :
  price <$> enrichDataWithIndicators s = price <$> s.
Proof.
  unfold enrichDataWithIndicators. rewrite fmap_imap.
  rewrite <- (imap_const price s). apply imap_ext. reflexivity.
Qed.

Lemma enrich_candles (s : list ChartDataPoint) :
  candleOf <$> enrichDataWithIndicators s = candleOf <$> s.
Proof.
  unfold enrichDataWithIndicators. rewrite fmap_imap.
  rewrite <- (imap_const candleOf s). apply imap_ext. reflexivity.
Qed.

Lemma slice_last_window (prices : list R) (period i : nat) :
  (period <= i + 1)%nat -> (i < length prices)%nat ->
  slice_last period (slice_to (i + 1) prices) = window period i prices
  /\ length (window period i prices) = period.
Proof.
  intros Hp Hi. unfold slice_last, slice_to, window.
  rewrite length_take_le by lia. split.
  - rewrite take_drop_commute. f_equal. f_equal. lia.
  - rewrite length_take, length_drop. lia.
Qed.

Lemma slice_to_short (prices : list R) (period i : nat) :
  (i + 1 < period)%nat -> (period <=? length (slice_to (i + 1) prices))%nat = false.
Proof.
  intros H. apply Nat.leb_gt. unfold slice_to. rewrite length_take. lia.
Qed.

Lemma enrichPoint_short20 prices i x :
  (i < 19)%nat ->
  sma20 (enrichPoint prices i x) = None
  /\ bollingerUpper (enrichPoint prices i x) = None
  /\ bollingerLower (enrichPoint prices i x) = None.
Proof.
  intros H. unfold enrichPoint, bands.
  rewrite (slice_to_short prices 20 i) by lia. auto.
Qed.

Lemma enrichPoint_short50 prices i x :
  (i < 49)%nat -> sma50 (enrichPoint prices i x) = None.
Proof.
  intros H. unfold enrichPoint.
  rewrite (slice_to_short prices 50 i) by lia. reflexivity.
Qed.

Lemma enrichPoint_sma20 prices i x v :
  (i < length prices)%nat ->
  sma20 (enrichPoint prices i x) = Some v ->
  (19 <= i)%nat /\ length (window 20 i prices) = 20%nat
  /\ v = total (window 20 i prices) / 20.
Proof.
  intros Hi. unfold enrichPoint. cbn [sma20 sma50].
  destruct (20 <=? length (slice_to (i + 1) prices))%nat eqn:E; [|discriminate].
  apply Nat.leb_le in E. unfold slice_to in E. rewrite length_take in E.
  destruct (slice_last_window prices 20 i) as [-> Hlen]; [lia | lia |].
  intros [= <-]. repeat split; [lia | exact Hlen].
Qed.

Lemma enrichPoint_sma50 prices i x v :
  (i < length prices)%nat ->
  sma50 (enrichPoint prices i x) = Some v ->
  (49 <= i)%nat /\ length (window 50 i prices) = 50%nat
  /\ v = total (window 50 i prices) / 50.
Proof.
  intros Hi. unfold enrichPoint. cbn [sma20 sma50].
  destruct (50 <=? length (slice_to (i + 1) prices))%nat eqn:E; [|discriminate].
  apply Nat.leb_le in E. unfold slice_to in E. rewrite length_take in E.
  destruct (slice_last_window prices 50 i) as [-> Hlen]; [lia | lia |].
  intros [= <-]. repeat split; [lia | exact Hlen].
Qed.

Lemma enrichPoint_bands prices i x :
  (i < length prices)%nat ->
  match sma20 (enrichPoint prices i x) with
  | Some m =>
      bollingerUpper (enrichPoint prices i x)
        = Some (m + deviation20 m (window 20 i prices) * 2)
      /\ bollingerLower (enrichPoint prices i x)
        = Some (m - deviation20 m (window 20 i prices) * 2)
  | None =>
      bollingerUpper (enrichPoint prices i x) = None
      /\ bollingerLower (enrichPoint prices i x) = None
  end.
Proof.
  intros Hi. unfold enrichPoint, bands.
  cbn [sma20 bollingerUpper bollingerLower].
  destruct (20 <=? length (slice_to (i + 1) prices))%nat eqn:E; [|auto].
  apply Nat.leb_le in E. unfold slice_to in E. rewrite length_take in E.
  destruct (slice_last_window prices 20 i) as [-> _]; [lia | lia |].
  simpl. auto.
Qed.

Lemma calculateSMA_short (prices : list R) (period : nat) :
  (length prices < period)%nat -> calculateSMA prices period = 0.
Proof.
  intros H. unfold calculateSMA.
  apply Nat.ltb_lt in H. rewrite H. reflexivity.
Qed.

Lemma calculateStdDev_short (prices : list R) (period : nat) :
  (length prices < period)%nat -> calculateStdDev prices period = 0.
Proof.
  intros H. unfold calculateStdDev.
  apply Nat.ltb_lt in H. rewrite H. reflexivity.
Qed.

Lemma calculateStdDev_nonneg (prices : list R) (period : nat) :
  0 <= calculateStdDev prices period.
Proof.
  unfold calculateStdDev.
  destruct (length prices <? period)%nat; [lra | apply sqrt_pos].
Qed.

(** C9. Enrichment is idempotent: the callback reads only the [price] of each
    point and overwrites the four derived fields, so enriching an enriched
    series gives back the same series, field for field. *)
Theorem enrich_idempotent (s : list ChartDataPoint) :
  enrichDataWithIndicators (enrichDataWithIndicators s)
  = enrichDataWithIndicators s.
Proof.
  apply list_eq. intros i.
  rewrite (enrich_lookup (enrichDataWithIndicators s)), enrich_prices.
  rewrite enrich_lookup.
  destruct (s !! i); reflexivity.
Qed.

(** C2. Insufficient data, two conventions.  In the whole-series enrichment
    the point at index [i] has no [sma20] and no Bollinger band when [i < 19]
    and no [sma50] when [i < 49]; a field that is present was computed from a
    full window: exactly 20 (resp. 50) samples ending at [i].  On the snapshot
    path [calculateSMA] returns [0] for every period longer than the series,
    and so do the [sma20], [sma50] and the three Bollinger values of
    [performTechnicalAnalysis]. *)
Theorem insufficient_data_sentinel :
  (forall (s : list ChartDataPoint) (i : nat) (p : ChartDataPoint),
      enrichDataWithIndicators s !! i = Some p ->
      ((i < 19)%nat ->
       sma20 p = None /\ bollingerUpper p = None /\ bollingerLower p = None)
      /\ ((i < 49)%nat -> sma50 p = None)
      /\ (forall v, sma20 p = Some v ->
            (19 <= i)%nat /\ length (window 20 i (price <$> s)) = 20%nat
            /\ v = total (window 20 i (price <$> s)) / 20)
      /\ (forall v, sma50 p = Some v ->
            (49 <= i)%nat /\ length (window 50 i (price <$> s)) = 50%nat
            /\ v = total (window 50 i (price <$> s)) / 50)
      /\ (forall v, bollingerUpper p = Some v ->
            exists m, sma20 p = Some m
              /\ v = m + deviation20 m (window 20 i (price <$> s)) * 2)
      /\ (forall v, bollingerLower p = Some v ->
            exists m, sma20 p = Some m
              /\ v = m - deviation20 m (window 20 i (price <$> s)) * 2))
  /\ (forall (prices : list R) (P : nat),
        (length prices < P)%nat -> calculateSMA prices P = 0)
  /\ (forall s : list ChartDataPoint,
        ((length s < 20)%nat ->
         ind_sma20 (performTechnicalAnalysis s) = 0
         /\ bollinger (performTechnicalAnalysis s) = mkBollinger 0 0 0)
        /\ ((length s < 50)%nat -> ind_sma50 (performTechnicalAnalysis s) = 0)).
Proof.
  split; [|split].
  - intros s i p Hp. rewrite enrich_lookup in Hp.
    destruct (s !! i) as [x|] eqn:Hx; [|discriminate].
    injection Hp as <-.
    assert (Hi : (i < length (price <$> s))%nat).
    { rewrite length_fmap. eapply lookup_lt_Some, Hx. }
    pose proof (enrichPoint_bands (price <$> s) i x Hi) as Hb.
    repeat split.
    + apply enrichPoint_short20; assumption.
    + apply enrichPoint_short20; assumption.
    + apply enrichPoint_short20; assumption.
    + apply enrichPoint_short50.
    + eapply enrichPoint_sma20; eauto.
    + eapply enrichPoint_sma20; eauto.
    + eapply enrichPoint_sma20; eauto.
    + eapply enrichPoint_sma50; eauto.
    + eapply enrichPoint_sma50; eauto.
    + eapply enrichPoint_sma50; eauto.
    + intros v Hv.
      destruct (sma20 (enrichPoint (price <$> s) i x)) as [m|].
      * exists m. split; [reflexivity|]. destruct Hb as [Hu _]. congruence.
      * destruct Hb as [Hu _]. congruence.
    + intros v Hv.
      destruct (sma20 (enrichPoint (price <$> s) i x)) as [m|].
      * exists m. split; [reflexivity|]. destruct Hb as [_ Hl]. congruence.
      * destruct Hb as [_ Hl]. congruence.
  - apply calculateSMA_short.
  - intros s. split.
    + intros H. unfold performTechnicalAnalysis. simpl.
      rewrite calculateSMA_short, calculateStdDev_short
        by (rewrite length_fmap; exact H).
      split; [reflexivity|]. f_equal; lra.
    + intros H. unfold performTechnicalAnalysis. simpl.
      apply calculateSMA_short. rewrite length_fmap. exact H.
Qed.

Lemma insufficient_data_sentinel_witness :
  sma20 (enrichPoint (price <$> [flatPoint "t" 1]) 0 (flatPoint "t" 1)) = None
  /\ calculateSMA [1; 2] 3 = 0
  /\ ind_sma20 (performTechnicalAnalysis [flatPoint "t" 1]) = 0
  /\ (forall v,
       sma20 (enrichPoint (price <$> flat20) 19 (flatPoint "t" 1)) = Some v ->
       v = total (window 20 19 (price <$> flat20)) / 20).
Proof.
  destruct insufficient_data_sentinel as (Henrich & Hsma & Hsnap).
  split; [|split; [|split]].
  - apply (Henrich [flatPoint "t" 1] 0%nat _ eq_refl). lia.
  - apply (Hsma [1; 2] 3%nat). simpl. lia.
  - apply (Hsnap [flatPoint "t" 1]). simpl. lia.
  - intros v Hv.
    apply (Henrich flat20 19%nat _ eq_refl). exact Hv.
Defined.

(** C1. Bollinger ordering.  In the whole-series enrichment, a point that has
    its [sma20] and both bands satisfies
    [bollingerUpper >= sma20 >= bollingerLower]; and the snapshot of
    [performTechnicalAnalysis] satisfies [upper >= middle >= lower] for every
    candle series. *)
Theorem bollinger_ordering :
  (forall (s : list ChartDataPoint) (i : nat) (p : ChartDataPoint) (u m l : R),
      enrichDataWithIndicators s !! i = Some p ->
      bollingerUpper p = Some u -> sma20 p = Some m ->
      bollingerLower p = Some l ->
      u >= m /\ m >= l)
  /\ (forall s : list ChartDataPoint,
        let b := bollinger (performTechnicalAnalysis s) in
        upper b >= middle b /\ middle b >= lower b).
Proof.
  split.
  - intros s i p u m l Hp Hu Hm Hl. rewrite enrich_lookup in Hp.
    destruct (s !! i) as [x|] eqn:Hx; [|discriminate].
    injection Hp as <-.
    assert (Hi : (i < length (price <$> s))%nat).
    { rewrite length_fmap. eapply lookup_lt_Some, Hx. }
    pose proof (enrichPoint_bands (price <$> s) i x Hi) as Hb.
    rewrite Hm in Hb. destruct Hb as [Hu' Hl'].
    rewrite Hu in Hu'. rewrite Hl in Hl'.
    injection Hu' as ->. injection Hl' as ->.
    pose proof (sqrt_pos
      (total ((fun val => (val - m) ^ 2) <$> window 20 i (price <$> s)) / 20)).
    unfold deviation20. lra.
  - intros s b. subst b. unfold performTechnicalAnalysis.
    cbn [bollinger upper middle lower].
    pose proof (calculateStdDev_nonneg (price <$> s) 20). lra.
Qed.

Lemma bollinger_ordering_witness :
  (exists u m l,
      bollingerUpper (enrichPoint (price <$> flat20) 19 (flatPoint "t" 1)) = Some u
      /\ sma20 (enrichPoint (price <$> flat20) 19 (flatPoint "t" 1)) = Some m
      /\ bollingerLower (enrichPoint (price <$> flat20) 19 (flatPoint "t" 1)) = Some l
      /\ u >= m /\ m >= l)
  /\ upper (bollinger (performTechnicalAnalysis flat20))
     >= middle (bollinger (performTechnicalAnalysis flat20)).
Proof.
  split.
  - eexists _, _, _.
    split; [reflexivity|]. split; [reflexivity|]. split; [reflexivity|].
    apply (proj1 bollinger_ordering flat20 19%nat _ _ _ _
             eq_refl eq_refl eq_refl eq_refl).
  - apply (proj2 bollinger_ordering flat20).
Defined.

(** ** RSI *)

Lemma deltas_seq (prices : list R) :
  deltas prices = diffAt prices <$> seq 1 (length prices - 1).
Proof.
  induction prices as [|a rest IH]; [reflexivity|].
  destruct rest as [|b rest]; [reflexivity|].
  change (deltas (a :: b :: rest)) with ((b - a) :: deltas (b :: rest)).
  rewrite IH.
  replace (length (a :: b :: rest) - 1)%nat with (S (length rest))
    by (simpl; lia).
  replace (length (b :: rest) - 1)%nat with (length rest) by (simpl; lia).
  cbn [seq fmap list_fmap]. f_equal.
  rewrite <- (fmap_S_seq 1), <- list_fmap_compose.
  apply list_fmap_ext. intros i x Hx.
  apply lookup_seq in Hx as [-> _].
  unfold diffAt, at_, compose.
  replace (S (1 + i) - 1)%nat with (S i) by lia.
  replace (1 + i - 1)%nat with i by lia.
  reflexivity.
Qed.

Lemma last_deltas (prices : list R) (period : nat) :
  (period + 1 <= length prices)%nat ->
  slice_last period (deltas prices)
  = diffAt prices <$> seq (length prices - period) period.
Proof.
  intros H. unfold slice_last. rewrite deltas_seq at 2.
  rewrite <- fmap_drop, drop_seq. rewrite deltas_seq, length_fmap, length_seq.
  f_equal. f_equal; lia.
Qed.

Lemma gainOf_nonneg d : 0 <= gainOf d.
Proof. unfold gainOf. cmp_cases; lra. Qed.

Lemma lossOf_nonneg d : 0 <= lossOf d.
Proof. unfold lossOf. cmp_cases; [apply Rabs_pos | lra]. Qed.

Lemma rsiStep_split prices acc i :
  rsiStep prices acc i
  = (fst acc + gainOf (diffAt prices i), snd acc + lossOf (diffAt prices i)).
Proof.
  unfold rsiStep, gainOf, lossOf. fold (diffAt prices i).
  cmp_cases; try lra; f_equal; try lra.
  rewrite Rabs_left by lra. lra.
Qed.

Lemma rsi_fold prices (l : list nat) acc :
  fold_left (rsiStep prices) l acc
  = (fst acc + total (gainOf <$> (diffAt prices <$> l)),
     snd acc + total (lossOf <$> (diffAt prices <$> l))).
Proof.
  revert acc. induction l as [|i l IH]; intros acc.
  - simpl. rewrite total_nil. destruct acc; simpl; f_equal; lra.
  - cbn [fold_left fmap list_fmap]. rewrite IH, rsiStep_split.
    rewrite !total_cons. cbn [fst snd]. f_equal; lra.
Qed.

Lemma rsiLoop_spec prices period :
  (period + 1 <= length prices)%nat ->
  fst (rsiLoop prices period) / INR period = avgGainSpec prices period
  /\ snd (rsiLoop prices period) / INR period = avgLossSpec prices period.
Proof.
  intros H. unfold rsiLoop, avgGainSpec, avgLossSpec.
  rewrite rsi_fold, last_deltas by exact H.
  cbn [fst snd]. split; f_equal; lra.
Qed.

Lemma avgGainSpec_nonneg prices : 0 <= avgGainSpec prices 14.
Proof.
  unfold avgGainSpec.
  assert (0 <= total (gainOf <$> slice_last 14 (deltas prices))).
  { apply total_nonneg, Forall_fmap, Forall_forall.
    intros d _. apply gainOf_nonneg. }
  assert (INR 14 = 14) as -> by (simpl; lra). lra.
Qed.

Lemma avgLossSpec_nonneg prices : 0 <= avgLossSpec prices 14.
Proof.
  unfold avgLossSpec.
  assert (0 <= total (lossOf <$> slice_last 14 (deltas prices))).
  { apply total_nonneg, Forall_fmap, Forall_forall.
    intros d _. apply lossOf_nonneg. }
  assert (INR 14 = 14) as -> by (simpl; lra). lra.
Qed.

Lemma rsi_formula_range (g l : R) :
  0 <= g -> 0 < l -> 0 <= 100 - 100 / (1 + g / l) <= 100.
Proof.
  intros Hg Hl.
  assert (Hrs : 0 <= g / l).
  { apply Rmult_le_pos; [exact Hg|]. left. apply Rinv_0_lt_compat, Hl. }
  assert (Hinv : 0 < / (1 + g / l) <= 1).
  { split.
    - apply Rinv_0_lt_compat. lra.
    - rewrite <- Rinv_1. apply Rinv_le_contravar; lra. }
  unfold Rdiv at 1. lra.
Qed.

(** C3. [calculateRSI] with period 14, on a non-empty series: the value lies
    in [[0,100]]; it is 50 when the series has fewer than 15 points; with 15
    points or more it is 100 when the average loss over the last 14
    transitions is 0, and [100 - 100/(1 + avgGain/avgLoss)] otherwise, the two
    averages being the sums of the positive deltas and of the absolute values
    of the negative deltas of the last 14 transitions, divided by 14. *)
Theorem calculateRSI_spec (prices : list R) :
  prices <> [] ->
  0 <= calculateRSI prices 14 <= 100
  /\ ((length prices < 15)%nat -> calculateRSI prices 14 = 50)
  /\ ((15 <= length prices)%nat -> avgLossSpec prices 14 = 0 ->
      calculateRSI prices 14 = 100)
  /\ ((15 <= length prices)%nat -> avgLossSpec prices 14 <> 0 ->
      calculateRSI prices 14
      = 100 - 100 / (1 + avgGainSpec prices 14 / avgLossSpec prices 14)).
Proof.
  intros _. unfold calculateRSI.
  destruct (length prices <? 14 + 1)%nat eqn:E.
  - apply Nat.ltb_lt in E.
    split; [lra|]. split; [reflexivity|]. split; intros; lia.
  - apply Nat.ltb_ge in E.
    destruct (rsiLoop_spec prices 14 E) as [-> ->].
    pose proof (avgGainSpec_nonneg prices) as Hg.
    pose proof (avgLossSpec_nonneg prices) as Hl.
    cbv zeta.
    destruct (req (avgLossSpec prices 14) 0) eqn:Ez.
    + apply req_true in Ez.
      split; [lra|]. split; [intros; lia|].
      split; [reflexivity | intros _ Hne; contradiction].
    + apply req_false in Ez.
      split; [apply rsi_formula_range; lra|].
      split; [intros; lia|].
      split; [intros _ Hz; contradiction | reflexivity].
Qed.

Lemma calculateRSI_spec_witness :
  zigzag15 <> [] /\ 0 <= calculateRSI zigzag15 14 <= 100.
Proof.
  split; [discriminate|].
  apply (calculateRSI_spec zigzag15). discriminate.
Defined.

Lemma gainOf_up d : 0 < d -> gainOf d = d /\ lossOf d = 0.
Proof. intros H. unfold gainOf, lossOf. cmp_cases; split; lra. Qed.

Lemma lossOf_down d : d < 0 -> gainOf d = 0 /\ lossOf d = - d.
Proof.
  intros H. unfold gainOf, lossOf.
  cmp_cases; split; try lra. apply Rabs_left, H.
Qed.

(** Seven gains of 1 and seven losses of 1 balance out. *)
Example calculateRSI_zigzag : calculateRSI zigzag15 14 = 50.
Proof.
  unfold calculateRSI, rsiLoop. rewrite rsi_fold.
  unfold zigzag15.
  cbn [length Nat.ltb Nat.leb Nat.add Nat.sub seq fmap list_fmap fst snd].
  unfold diffAt, at_. cbn [nth Nat.sub].
  destruct (gainOf_up (2 - 1)) as [-> ->]; [lra|].
  destruct (lossOf_down (1 - 2)) as [-> ->]; [lra|].
  rewrite !total_cons, total_nil.
  assert (INR 14 = 14) as -> by (simpl; lra).
  match goal with
  | |- context [req (?l / 14) 0] => replace l with 7 by lra
  end.
  match goal with
  | |- context [?g / 14 / (7 / 14)] => replace g with 7 by lra
  end.
  replace (7 / 14 / (7 / 14)) with 1 by (field; lra).
  cmp_cases; lra.
Qed.

(** ** The scorer *)

(** C5. The score of [predictSignalXGBoost] is the sum of the four nodes of the
    rule set (trend following +30/-30, mean reversion +40/-40, volatility
    squeeze +20/-20 under a band width below 0.05, momentum +10/-10), and the
    signal is BUY exactly when the score exceeds 25, SELL exactly when it is
    below -25, HOLD exactly when neither holds.  This holds for every
    snapshot, a zero [middle] included: the band width is then infinite or
    [NaN], and the squeeze node fires only when it is minus infinity. *)
Theorem scorer_rule_set (ind : TechnicalIndicators) (currentPrice random : R) :
  scoreOf ind currentPrice
  = trendNode ind currentPrice + meanReversionNode ind
    + squeezeNode ind currentPrice + momentumNode ind
  /\ (signal (predictSignalXGBoost ind currentPrice random) = BUY
      <-> scoreOf ind currentPrice > 25)
  /\ (signal (predictSignalXGBoost ind currentPrice random) = SELL
      <-> scoreOf ind currentPrice < -25)
  /\ (signal (predictSignalXGBoost ind currentPrice random) = HOLD
      <-> ~ scoreOf ind currentPrice > 25 /\ ~ scoreOf ind currentPrice < -25).
Proof.
  split.
  - unfold scoreOf, trendNode, meanReversionNode, squeezeNode, momentumNode,
      trendScoreOf, bbWidthOf. cbv zeta.
    destruct (lessThan
                (divide (upper (bollinger ind) - lower (bollinger ind))
                        (middle (bollinger ind))) 0.05);
      destruct (trend ind); cbn [trendEq andb];
      cmp_cases; cbn [andb]; try lra; exfalso; lra.
  - unfold predictSignalXGBoost. cbn [signal].
    generalize (scoreOf ind currentPrice). intros sc.
    cmp_cases; repeat split; intros; try discriminate; try lra;
      try reflexivity.
    all: match goal with H : _ /\ _ |- _ => destruct H; lra end.
Qed.

(** A snapshot of fewer than 20 candles has its three bands at zero: the band
    width is [0 / 0], which is below nothing, and the squeeze node stays
    silent whatever the price. *)
Lemma snapshot_short_bollinger (s : list ChartDataPoint) :
  (length s < 20)%nat ->
  bollinger (performTechnicalAnalysis s) = mkBollinger 0 0 0.
Proof.
  intros H. unfold performTechnicalAnalysis. cbn [bollinger].
  rewrite calculateSMA_short, calculateStdDev_short
    by (rewrite length_fmap; exact H).
  f_equal; lra.
Qed.

Lemma short_history_no_squeeze (s : list ChartDataPoint) (currentPrice : R) :
  (length s < 20)%nat ->
  bbWidthOf (performTechnicalAnalysis s) = NotANumber
  /\ squeezeNode (performTechnicalAnalysis s) currentPrice = 0.
Proof.
  intros H.
  assert (Hw : divide (0 - 0) 0 = NotANumber).
  { unfold divide. rewrite (proj2 (req_true 0 0) eq_refl).
    rewrite (proj2 (rgt_false (0 - 0) 0)) by lra.
    rewrite (proj2 (rlt_false (0 - 0) 0)) by lra. reflexivity. }
  unfold bbWidthOf, squeezeNode. cbv zeta.
  rewrite (snapshot_short_bollinger s H). cbn [upper lower middle].
  rewrite Hw. split; reflexivity.
Qed.

(** Twelve candles at price 1: only the momentum node speaks (the 12-candle
    mean is 1, the 26-candle mean the sentinel 0), the score is 10 and the
    signal HOLD, although the price is above the zero upper band. *)
Example scoreOf_flat12 :
  scoreOf (performTechnicalAnalysis flat12) 1 = 10
  /\ signal (predictSignalXGBoost (performTechnicalAnalysis flat12) 1 0) = HOLD.
Proof.
  assert (Hlen : (length flat12 < 20)%nat) by (simpl; lia).
  destruct (short_history_no_squeeze flat12 1 Hlen) as [Hw _].
  assert (Hs : scoreOf (performTechnicalAnalysis flat12) 1 = 10).
  { unfold scoreOf. rewrite Hw. cbn [lessThan]. cbv zeta.
    assert (Ht : trend (performTechnicalAnalysis flat12) = SIDEWAYS).
    { unfold performTechnicalAnalysis. cbn [trend].
      rewrite (calculateSMA_short _ 20), (calculateSMA_short _ 50)
        by (simpl; lia).
      rewrite (proj2 (rgt_false 0 0)), (proj2 (rlt_false 0 0)) by lra.
      reflexivity. }
    assert (Hr : rsi (performTechnicalAnalysis flat12) = 50) by reflexivity.
    assert (Hh : histogram (macd (performTechnicalAnalysis flat12)) = 0.1).
    { unfold performTechnicalAnalysis. cbn [macd histogram].
      rewrite (calculateSMA_short _ 26) by (simpl; lia).
      unfold calculateSMA, total, slice_last. simpl. lra. }
    unfold trendScoreOf. rewrite Ht, Hr, Hh.
    cmp_cases; cbn [andb]; lra. }
  split; [exact Hs|].
  unfold predictSignalXGBoost. cbn [signal]. rewrite Hs.
  rewrite (proj2 (rgt_false 10 25)), (proj2 (rlt_false 10 (-25))) by lra.
  reflexivity.
Qed.

Lemma total_pos (l : list R) :
  l <> [] -> Forall (fun x => 0 < x) l -> 0 < total l.
Proof.
  intros Hne Hall. destruct Hall as [|x l Hx Hl]; [contradiction|].
  rewrite total_cons.
  assert (0 <= total l).
  { apply total_nonneg. eapply Forall_impl; [exact Hl|]. intros; simpl; lra. }
  lra.
Qed.

(** With a full window of positive closes the mean is positive. *)
Lemma calculateSMA_pos (prices : list R) (period : nat) :
  (0 < period <= length prices)%nat -> Forall (fun x => 0 < x) prices ->
  0 < calculateSMA prices period.
Proof.
  intros [Hp Hlen] Hall. unfold calculateSMA.
  replace (length prices <? period)%nat with false
    by (symmetry; apply Nat.ltb_ge; lia).
  apply Rdiv_lt_0_compat; [|apply lt_0_INR; lia].
  apply total_pos.
  - intros Hnil. apply (f_equal length) in Hnil.
    unfold slice_last in Hnil. rewrite length_drop in Hnil.
    simpl in Hnil. lia.
  - unfold slice_last. apply Forall_drop, Hall.
Qed.

(** The snapshot of at least 20 candles with positive closes has its bands in
    order around a positive middle: what the volatility bound needs. *)
Lemma snapshot_bands (s : list ChartDataPoint) :
  (20 <= length s)%nat -> Forall (fun p => 0 < price p) s ->
  lower (bollinger (performTechnicalAnalysis s))
  <= upper (bollinger (performTechnicalAnalysis s))
  /\ 0 < middle (bollinger (performTechnicalAnalysis s)).
Proof.
  intros Hlen Hall. unfold performTechnicalAnalysis.
  cbn [bollinger upper middle lower].
  pose proof (calculateStdDev_nonneg (price <$> s) 20).
  split; [lra|].
  apply calculateSMA_pos.
  - rewrite length_fmap. lia.
  - apply Forall_fmap. exact Hall.
Qed.

(** With a divisor that is not zero the quotient is the real one. *)
Lemma divide_finite (a b : R) : b <> 0 -> divide a b = Finite (a / b).
Proof.
  intros Hb. unfold divide. rewrite (proj2 (req_false b 0) Hb). reflexivity.
Qed.

Lemma bbWidthOf_finite (ind : TechnicalIndicators) :
  middle (bollinger ind) <> 0 ->
  bbWidthOf ind
  = Finite ((upper (bollinger ind) - lower (bollinger ind))
            / middle (bollinger ind)).
Proof. intros H. unfold bbWidthOf. apply divide_finite, H. Qed.

Lemma engine_volatility_nonneg (s : list ChartDataPoint) (currentPrice random : R) :
  (20 <= length s)%nat -> Forall (fun p => 0 < price p) s ->
  exists v,
    volatility (features (predictSignalXGBoost (performTechnicalAnalysis s)
                            currentPrice random)) = Finite v
    /\ v >= 0.
Proof.
  intros Hlen Hall.
  destruct (snapshot_bands s Hlen Hall) as [Hband Hmid].
  unfold predictSignalXGBoost. cbn [features volatility].
  rewrite bbWidthOf_finite by (cbn [bollinger middle]; lra).
  eexists. split; [reflexivity|]. apply Rle_ge, div_nonneg; lra.
Qed.

(** Below 20 candles the engine's own snapshot has no band width: the
    [volatility] passed on is [NaN]. *)
Lemma short_history_volatility (s : list ChartDataPoint)
  (currentPrice random : R) :
  (length s < 20)%nat ->
  volatility (features (predictSignalXGBoost (performTechnicalAnalysis s)
                          currentPrice random)) = NotANumber.
Proof.
  intros H. unfold predictSignalXGBoost. cbn [features volatility].
  apply (short_history_no_squeeze s currentPrice H).
Qed.

(** C6, as stated, fails: bands ordered around a negative middle (what a
    series of negative closes yields) give a negative band width, which the
    scorer passes on as [volatility]. *)
Lemma volatility_negative_middle :
  0 <= rsi negativeMiddle <= 100
  /\ 0 <= 0 * 5 < 5
  /\ exists v,
       volatility (features (predictSignalXGBoost negativeMiddle 1 0))
       = Finite v
       /\ ~ v >= 0.
Proof.
  split; [simpl; lra|]. split; [lra|].
  unfold predictSignalXGBoost. cbn [features volatility].
  rewrite bbWidthOf_finite by (simpl; lra).
  eexists. split; [reflexivity|]. simpl. lra.
Qed.

(** C6, amended. For a snapshot with [rsi] in [[0,100]], [lower <= upper] and
    a positive [middle], every price and every jitter [random * 5] in
    [[0,5)]: the confidence lies in [[0,98]], [rsiNormalized] in [[-1,1]],
    [trendStrength] is -1, 0 or 1, and [volatility] is a finite number that
    is not negative. *)
Theorem prediction_bounds (ind : TechnicalIndicators) (currentPrice random : R) :
  0 <= rsi ind <= 100 ->
  0 <= random * 5 < 5 ->
  lower (bollinger ind) <= upper (bollinger ind) ->
  0 < middle (bollinger ind) ->
  let p := predictSignalXGBoost ind currentPrice random in
  0 <= confidence p <= 98
  /\ -1 <= rsiNormalized (features p) <= 1
  /\ (trendStrength (features p) = -1 \/ trendStrength (features p) = 0
      \/ trendStrength (features p) = 1)
  /\ exists v, volatility (features p) = Finite v /\ v >= 0.
Proof.
  intros Hrsi Hj Hband Hmid p. subst p. unfold predictSignalXGBoost.
  cbn [confidence features rsiNormalized trendStrength volatility].
  split; [|split; [|split]].
  - generalize (scoreOf ind currentPrice). intros sc.
    pose proof (Rabs_pos sc).
    unfold Rmax, Rmin.
    repeat match goal with
    | |- context [Rle_dec ?a ?b] => destruct (Rle_dec a b)
    end; lra.
  - lra.
  - unfold trendScoreOf. destruct (trend ind); auto.
  - rewrite bbWidthOf_finite by lra.
    eexists. split; [reflexivity|]. apply Rle_ge, div_nonneg; lra.
Qed.

Lemma prediction_bounds_witness :
  0 <= confidence (predictSignalXGBoost positiveMiddle 4 0.5) <= 98
  /\ exists v,
       volatility (features (predictSignalXGBoost positiveMiddle 4 0.5))
       = Finite v
       /\ v >= 0.
Proof.
  assert (H : let p := predictSignalXGBoost positiveMiddle 4 0.5 in
              0 <= confidence p <= 98
              /\ -1 <= rsiNormalized (features p) <= 1
              /\ (trendStrength (features p) = -1
                  \/ trendStrength (features p) = 0
                  \/ trendStrength (features p) = 1)
              /\ exists v, volatility (features p) = Finite v /\ v >= 0).
  { apply (prediction_bounds positiveMiddle 4 0.5); simpl; lra. }
  split; apply H.
Defined.

(** On that snapshot the four nodes add up to 30 + 40 + 0 + 10. *)
Example scoreOf_positiveMiddle : scoreOf positiveMiddle 4 = 80.
Proof.
  unfold scoreOf. rewrite bbWidthOf_finite by (simpl; lra).
  unfold trendScoreOf, positiveMiddle, lessThan.
  cbn [trend rsi ind_sma50 bollinger upper lower middle macd histogram].
  cmp_cases; cbn [andb]; lra.
Qed.

(** ** The backtest *)

Lemma backtestAfter_S data random initialBalance n :
  backtestAfter data random initialBalance (S n)
  = backtestStep data random
      (backtestAfter data random initialBalance n) (startIdx + n).
Proof.
  unfold backtestAfter. rewrite seq_S, fold_left_app. reflexivity.
Qed.

(** One turn keeps cash and position non-negative and records
    [balance + shares * currentPrice], read after the trade of that turn. *)
Lemma backtestStep_inv data random st i :
  0 < price (pointAt data i) ->
  0 <= balance st -> 0 <= shares st ->
  let st' := backtestStep data random st i in
  0 <= balance st' /\ 0 <= shares st'
  /\ equityCurve st'
     = equityCurve st
       ++ [equityPoint (date (pointAt data i))
             (balance st' + shares st' * price (pointAt data i))].
Proof.
  intros Hp Hb Hs. unfold backtestStep.
  set (cp := price (pointAt data i)) in *.
  set (pr := predictSignalXGBoost _ cp (random i)).
  pose proof (div_nonneg (balance st) cp Hb Hp) as Hdiv.
  assert (Hmul : 0 <= shares st * cp) by (apply Rmult_le_pos; lra).
  destruct (req (shares st) 0); destruct (signal pr);
    try destruct (rgt (confidence pr) 60);
    cbn [balance shares equityCurve]; repeat split; lra.
Qed.

Lemma price_positive_at (data : list ChartDataPoint) (i : nat) :
  Forall (fun p => 0 < price p) data -> (i < length data)%nat ->
  0 < price (pointAt data i).
Proof.
  intros Hall Hi. unfold pointAt.
  destruct (lookup_lt_is_Some_2 data i Hi) as [x Hx].
  rewrite (nth_lookup_Some _ _ _ _ Hx).
  exact (proj1 (Forall_lookup _ data) Hall i x Hx).
Qed.

Lemma backtestAfter_inv data random initialBalance n :
  Forall (fun p => 0 < price p) data -> 0 <= initialBalance ->
  (n <= length data - startIdx)%nat ->
  0 <= balance (backtestAfter data random initialBalance n)
  /\ 0 <= shares (backtestAfter data random initialBalance n)
  /\ length (equityCurve (backtestAfter data random initialBalance n)) = n.
Proof.
  intros Hall H0. induction n as [|n IH]; intros Hn.
  - unfold backtestAfter. simpl. repeat split; lra.
  - destruct IH as (Hb & Hs & Hlen); [lia|].
    rewrite backtestAfter_S.
    assert (Hp : 0 < price (pointAt data (startIdx + n))).
    { apply price_positive_at; [exact Hall | lia]. }
    destruct (backtestStep_inv data random _ _ Hp Hb Hs) as (Hb' & Hs' & Hc).
    repeat split; [exact Hb' | exact Hs' |].
    rewrite Hc, length_app, Hlen. simpl. lia.
Qed.

Lemma equityCurve_prefix data random initialBalance n k :
  Forall (fun p => 0 < price p) data -> 0 <= initialBalance ->
  (n <= length data - startIdx)%nat -> (k < n)%nat ->
  equityCurve (backtestAfter data random initialBalance n) !! k
  = Some (equityPoint (date (pointAt data (startIdx + k)))
            (balance (backtestAfter data random initialBalance (S k))
             + shares (backtestAfter data random initialBalance (S k))
               * price (pointAt data (startIdx + k)))).
Proof.
  intros Hall H0. induction n as [|n IH]; intros Hn Hk; [lia|].
  destruct (backtestAfter_inv data random initialBalance n Hall H0)
    as (Hb & Hs & Hlen); [lia|].
  assert (Hp : 0 < price (pointAt data (startIdx + n))).
  { apply price_positive_at; [exact Hall | lia]. }
  destruct (backtestStep_inv data random _ _ Hp Hb Hs) as (_ & _ & Hc).
  rewrite <- backtestAfter_S in Hc. rewrite Hc.
  destruct (decide (k = n)) as [->|Hne].
  - rewrite lookup_app_r by lia. rewrite Hlen, Nat.sub_diag. reflexivity.
  - rewrite lookup_app_l by lia. apply IH; lia.
Qed.

(** C4. Backtest state invariant.  For candles with strictly positive prices
    and a non-negative initial balance, after every number of turns of the
    loop of [runBacktest] the cash balance and the position are non-negative,
    and the equity point recorded by turn [k] is
    [balance + shares * currentPrice], with the balance and the position as
    that turn leaves them and the price of the candle of that turn. *)
Theorem backtest_invariant (data : list ChartDataPoint)
  (initialBalance : R) (random : nat -> R) :
  Forall (fun p => 0 < price p) data ->
  0 <= initialBalance ->
  (forall n, (n <= length data - startIdx)%nat ->
     0 <= balance (backtestAfter data random initialBalance n)
     /\ 0 <= shares (backtestAfter data random initialBalance n))
  /\ length (res_equityCurve (runBacktest data initialBalance random))
     = (length data - startIdx)%nat
  /\ (forall k, (k < length data - startIdx)%nat ->
       let st := backtestAfter data random initialBalance (S k) in
       let currentPrice := price (pointAt data (startIdx + k)) in
       res_equityCurve (runBacktest data initialBalance random) !! k
       = Some (equityPoint (date (pointAt data (startIdx + k)))
                 (balance st + shares st * currentPrice))).
Proof.
  intros Hall H0. split; [|split].
  - intros n Hn.
    destruct (backtestAfter_inv data random initialBalance n Hall H0 Hn)
      as (Hb & Hs & _).
    split; assumption.
  - unfold runBacktest. cbn [res_equityCurve].
    apply (backtestAfter_inv data random initialBalance _ Hall H0).
    lia.
  - intros k Hk st currentPrice. subst st currentPrice.
    unfold runBacktest. cbn [res_equityCurve].
    apply equityCurve_prefix; auto.
Qed.

(** ** The fetch cache *)

Section Cache.
Variable env : Env.
Variables (symbol : string) (interval : Timeframe) (limit : nat)
          (marketType : MarketType).

Local Abbreviation key := (cacheKey symbol interval marketType).
Local Abbreviation request := (requestFor env symbol interval limit marketType).
Local Abbreviation get := (fetchCryptoData env symbol interval limit marketType).

Lemma cacheHit_Some (w : World) (now : Z) (e : CacheEntry) :
  cacheHit w key now = Some e
  <-> DATA_CACHE w !! key = Some e /\ (now - timestamp e < CACHE_DURATION)%Z.
Proof.
  unfold cacheHit. destruct (DATA_CACHE w !! key) as [e'|].
  - destruct (now - timestamp e' <? CACHE_DURATION)%Z eqn:E.
    + apply Z.ltb_lt in E. split.
      * intros [= <-]. auto.
      * intros [[= <-] _]. reflexivity.
    + apply Z.ltb_ge in E. split; [discriminate|].
      intros [[= <-] H]. lia.
  - split; [discriminate | intros [? _]; discriminate].
Qed.

Lemma cacheHit_None (w : World) (now : Z) :
  cacheHit w key now = None
  <-> DATA_CACHE w !! key = None
      \/ exists e, DATA_CACHE w !! key = Some e
                   /\ (CACHE_DURATION <= now - timestamp e)%Z.
Proof.
  unfold cacheHit. destruct (DATA_CACHE w !! key) as [e'|].
  - destruct (now - timestamp e' <? CACHE_DURATION)%Z eqn:E.
    + apply Z.ltb_lt in E. split; [discriminate|].
      intros [?|(e & [= <-] & H)]; [discriminate | lia].
    + apply Z.ltb_ge in E. split; [|reflexivity].
      intros _. right. exists e'. auto.
  - split; auto.
Qed.

(** A hit: the cached series, no request, the state untouched. *)
Lemma fetch_hit (w : World) (now : Z) (e : CacheEntry) :
  DATA_CACHE w !! key = Some e ->
  (now - timestamp e < CACHE_DURATION)%Z ->
  get now w = (data e, w).
Proof.
  intros He Hage. unfold fetchCryptoData.
  rewrite (proj2 (cacheHit_Some w now e)) by auto. reflexivity.
Qed.

(** A miss: one request; a successful answer is stored under the key with
    the current time, a failed one leaves the cache as it was. *)
Lemma fetch_miss (w : World) (now : Z) :
  cacheHit w key now = None ->
  requests (get now w).2 = request :: requests w
  /\ (forall rows, fetch env now request = Some rows ->
       (get now w).1 = enrichDataWithIndicators rows
       /\ DATA_CACHE (get now w).2
          = <[key := mkEntry now (enrichDataWithIndicators rows)]>
              (DATA_CACHE w))
  /\ (fetch env now request = None ->
       DATA_CACHE (get now w).2 = DATA_CACHE w).
Proof.
  intros Hmiss. unfold fetchCryptoData. rewrite Hmiss.
  destruct (fetch env now request) as [rows|]; cbn.
  - split; [reflexivity|]. split; [|discriminate].
    intros rows' [= <-]. auto.
  - split; [reflexivity|]. split; [discriminate | reflexivity].
Qed.

(** C8, amended.  A fetch returns the cached series, without a request to
    the source and without touching the cache, when the key has an entry
    with [now - timestamp < 60000] ms; it asks the source exactly when the
    key has no entry or [now - timestamp >= 60000].  A successful answer
    replaces the entry by the enriched rows stamped [now]; a failed one is
    not cached.  Consequently, after a fetch at [t1] that the source
    answered, a fetch at [t2] with [t2 - t1 < 60000] returns the same series
    and issues no request, and a later fetch at [t3] with
    [t3 - t1 >= 60000] (61 seconds, say) issues a second request and, when
    answered, overwrites the entry. *)
Theorem cache_ttl (w : World) (now : Z) :
  (forall e, DATA_CACHE w !! key = Some e ->
     (now - timestamp e < CACHE_DURATION)%Z ->
     get now w = (data e, w))
  /\ (DATA_CACHE w !! key = None
      \/ (exists e, DATA_CACHE w !! key = Some e
                    /\ (CACHE_DURATION <= now - timestamp e)%Z) ->
      requests (get now w).2 = request :: requests w
      /\ (forall rows, fetch env now request = Some rows ->
           (get now w).1 = enrichDataWithIndicators rows
           /\ DATA_CACHE (get now w).2 !! key
              = Some (mkEntry now (enrichDataWithIndicators rows))
           /\ forall k, k <> key ->
                DATA_CACHE (get now w).2 !! k = DATA_CACHE w !! k)
      /\ (fetch env now request = None ->
           DATA_CACHE (get now w).2 = DATA_CACHE w))
  /\ (forall rows t2 t3,
        cacheHit w key now = None ->
        fetch env now request = Some rows ->
        (t2 - now < CACHE_DURATION)%Z ->
        (CACHE_DURATION <= t3 - now)%Z ->
        let w1 := (get now w).2 in
        let w2 := (get t2 w1).2 in
        let w3 := (get t3 w2).2 in
        (get t2 w1).1 = (get now w).1
        /\ requests w2 = request :: requests w
        /\ requests w3 = request :: request :: requests w
        /\ forall rows3, fetch env t3 request = Some rows3 ->
             DATA_CACHE w3 !! key
             = Some (mkEntry t3 (enrichDataWithIndicators rows3))).
Proof.
  split; [|split].
  - intros e. apply fetch_hit.
  - intros Hstale. apply cacheHit_None in Hstale.
    destruct (fetch_miss w now Hstale) as (Hreq & Hok & Hfail).
    split; [exact Hreq|]. split; [|exact Hfail].
    intros rows Hrows. destruct (Hok rows Hrows) as [Hres Hcache].
    split; [exact Hres|]. rewrite Hcache. split.
    + apply lookup_insert_eq.
    + intros k Hk. apply lookup_insert_ne. congruence.
  - intros rows t2 t3 Hmiss Hrows Ht2 Ht3 w1 w2 w3.
    destruct (fetch_miss w now Hmiss) as (Hreq & Hok & _).
    destruct (Hok rows Hrows) as [Hres Hcache].
    assert (He : DATA_CACHE w1 !! key
                 = Some (mkEntry now (enrichDataWithIndicators rows))).
    { subst w1. rewrite Hcache. apply lookup_insert_eq. }
    assert (Hsecond : get t2 w1 = (enrichDataWithIndicators rows, w1)).
    { apply (fetch_hit w1 t2 _ He). exact Ht2. }
    assert (Hw2 : w2 = w1) by (subst w2; rewrite Hsecond; reflexivity).
    assert (Hthird : cacheHit w2 key t3 = None).
    { apply cacheHit_None. right. rewrite Hw2. eexists. split; [exact He|].
      exact Ht3. }
    destruct (fetch_miss w2 t3 Hthird) as (Hreq3 & Hok3 & _).
    split; [rewrite Hsecond, Hres; reflexivity|].
    split; [rewrite Hw2; exact Hreq|].
    split; [subst w3; rewrite Hreq3, Hw2; f_equal; exact Hreq|].
    intros rows3 Hrows3. destruct (Hok3 rows3 Hrows3) as [_ Hc3].
    subst w3. rewrite Hc3. apply lookup_insert_eq.
Qed.
End Cache.

Lemma cache_ttl_witness :
  fetchCryptoData quietEnv "BTC" TF_1h 200 FUTURES 59999 stampedWorld
  = ([], stampedWorld).
Proof.
  apply (proj1 (cache_ttl quietEnv "BTC" TF_1h 200 FUTURES stampedWorld 59999)
           (mkEntry 0 [])).
  - apply lookup_singleton_eq.
  - unfold CACHE_DURATION. simpl. lia.
Defined.

(** C8, as stated, fails on the boundary: an entry aged exactly 60000 ms is
    not older than the TTL ([now - timestamp > TTL] is false), and yet the
    fetch goes to the source. *)
Lemma cache_refetch_at_ttl :
  DATA_CACHE stampedWorld !! cacheKey "BTC" TF_1h FUTURES = Some (mkEntry 0 [])
  /\ ~ (60000 - timestamp (mkEntry 0 []) > CACHE_DURATION)%Z
  /\ requests
       (fetchCryptoData quietEnv "BTC" TF_1h 200 FUTURES 60000 stampedWorld).2
     = [mkRequest FUTURES "BTCUSDT" TF_1h 200].
Proof.
  assert (He : DATA_CACHE stampedWorld !! cacheKey "BTC" TF_1h FUTURES
               = Some (mkEntry 0 [])) by apply lookup_singleton_eq.
  split; [exact He|]. split; [unfold CACHE_DURATION; simpl; lia|].
  assert (Hmiss : cacheHit stampedWorld (cacheKey "BTC" TF_1h FUTURES) 60000
                  = None).
  { apply cacheHit_None. right. eexists. split; [exact He|].
    unfold CACHE_DURATION. simpl. lia. }
  destruct (fetch_miss quietEnv "BTC" TF_1h 200 FUTURES stampedWorld 60000 Hmiss)
    as [Hreq _].
  exact Hreq.
Qed.

(** ** The streaming handler *)

Lemma candleOf_spreadOver lastCandle newCandle :
  candleOf (spreadOver lastCandle newCandle) = candleOf newCandle.
Proof. reflexivity. Qed.

(** Same bucket label: the last element is replaced in place. *)
Lemma updateOrAppend_same prev label k :
  date (pointAt prev (length prev - 1)) = label ->
  updateOrAppend prev label k
  = <[(length prev - 1)%nat :=
        spreadOver (pointAt prev (length prev - 1)) (newCandleOf label k)]> prev.
Proof.
  intros H. unfold updateOrAppend.
  rewrite (proj2 (String.eqb_eq _ _) H). reflexivity.
Qed.

(** New bucket label: the candle is pushed, and one element is shifted out
    when the length then exceeds 200. *)
Lemma updateOrAppend_new prev label k :
  date (pointAt prev (length prev - 1)) <> label ->
  updateOrAppend prev label k
  = if (200 <? length (prev ++ [newCandleOf label k]))%nat
    then tail (prev ++ [newCandleOf label k])
    else prev ++ [newCandleOf label k].
Proof.
  intros H. unfold updateOrAppend.
  rewrite (proj2 (String.eqb_neq _ _) H). reflexivity.
Qed.

Lemma updateOrAppend_length prev label k :
  prev <> [] ->
  length (updateOrAppend prev label k)
  = if String.eqb (date (pointAt prev (length prev - 1))) label
    then length prev
    else if (length prev <? 200)%nat then S (length prev) else length prev.
Proof.
  intros Hne. unfold updateOrAppend.
  destruct (String.eqb _ label).
  - apply length_insert.
  - rewrite length_app. cbn [length].
    replace (length prev + 1)%nat with (S (length prev)) by lia.
    destruct (200 <? S (length prev))%nat eqn:E.
    + apply Nat.ltb_lt in E.
      destruct (length prev <? 200)%nat eqn:E'; [apply Nat.ltb_lt in E'; lia|].
      destruct prev; [contradiction|]. cbn [app tail].
      rewrite length_app. simpl. lia.
    + apply Nat.ltb_ge in E.
      destruct (length prev <? 200)%nat eqn:E'; [|apply Nat.ltb_ge in E'; lia].
      rewrite length_app. simpl. lia.
Qed.

Lemma tail_snoc {A} (l : list A) (x : A) :
  l <> [] -> tail (l ++ [x]) = drop 1 l ++ [x].
Proof. destruct l; [contradiction | reflexivity]. Qed.

(** For a kline message on a non-empty history, the stored series is the
    enrichment of the merged one. *)
Lemma onmessage_history formatDate msg random randoms st :
  msg_e msg = "kline" -> history st <> [] ->
  history (onmessage formatDate msg random randoms st).1
  = enrichDataWithIndicators
      (updateOrAppend (history st) (formatDate (k_t (msg_k msg))) (msg_k msg)).
Proof.
  intros He Hne. unfold onmessage.
  rewrite (proj2 (String.eqb_eq _ _) He).
  destruct (length (history st) =? 0)%nat eqn:E.
  - apply Nat.eqb_eq in E. destruct (history st); [contradiction|discriminate].
  - reflexivity.
Qed.

Lemma enrichPoint_ext prices prices' i x :
  slice_to (i + 1) prices = slice_to (i + 1) prices' ->
  enrichPoint prices i x = enrichPoint prices' i x.
Proof. intros H. unfold enrichPoint. rewrite H. reflexivity. Qed.

(** Enrichment is causal: replacing the element at [n] leaves the enriched
    points before [n] as they were. *)
Lemma enrich_insert_before (s : list ChartDataPoint) n y i :
  (i < n)%nat ->
  enrichDataWithIndicators (<[n := y]> s) !! i
  = enrichDataWithIndicators s !! i.
Proof.
  intros Hi. rewrite !enrich_lookup.
  rewrite list_lookup_insert_ne by lia.
  destruct (s !! i) as [x|]; [|reflexivity]. cbn. f_equal.
  apply enrichPoint_ext. unfold slice_to.
  rewrite list_fmap_insert. apply take_insert_ge. lia.
Qed.

(** ... and so does appending after them. *)
Lemma enrich_app_before (s k : list ChartDataPoint) i :
  (i < length s)%nat ->
  enrichDataWithIndicators (s ++ k) !! i = enrichDataWithIndicators s !! i.
Proof.
  intros Hi. rewrite !enrich_lookup.
  rewrite lookup_app_l by exact Hi.
  destruct (s !! i) as [x|]; [|reflexivity]. cbn. f_equal.
  apply enrichPoint_ext. unfold slice_to.
  rewrite fmap_app. apply take_app_le. rewrite length_fmap. lia.
Qed.

(** C10. A kline tick that arrives while the stored history is empty leaves
    the dashboard state as it was (the updater returns [prev]) and runs none of
    the recompute steps: no enrichment, no snapshot, no prediction, no
    backtest. *)
Theorem tick_on_empty_history formatDate msg random randoms st :
  history st = [] ->
  onmessage formatDate msg random randoms st = (st, []).
Proof.
  intros H. unfold onmessage. rewrite H.
  destruct (String.eqb (msg_e msg) "kline"); reflexivity.
Qed.

Lemma tick_on_empty_history_witness :
  onmessage (labelled "b") tick 0%R noRandom emptyDashboard
  = (emptyDashboard, []).
Proof.
  apply (tick_on_empty_history (labelled "b") tick 0%R noRandom
           emptyDashboard).
  reflexivity.
Defined.

(** C7, as stated, fails: a stored history of 201 candles (what the simulated
    fallback of [fetchCryptoData] yields for [limit = 200]: one bar for each
    [i] from 200 down to 0) and a tick with a new label give a stored window
    of 201 candles again. *)
Lemma window_exceeds_200 :
  history overlong <> []
  /\ date (pointAt (history overlong) (length (history overlong) - 1)) <> "b"%string
  /\ ~ (length (history (onmessage (labelled "b") tick 0%R
                                     noRandom overlong).1)
        <= 200)%nat.
Proof.
  assert (Hne : history overlong <> []) by discriminate.
  split; [exact Hne|]. split; [discriminate|].
  rewrite onmessage_history by (reflexivity || exact Hne).
  rewrite enrich_length, updateOrAppend_length by exact Hne.
  cbn. lia.
Qed.

(** C7, amended.  For a non-empty stored history [prev] and a kline tick:
    when the tick's label equals the date of the last stored candle, the
    merged series has the length of [prev], its candles are those of [prev]
    with the last one replaced by the tick's, and (for a history that is
    already enriched) every element before the last is unchanged; otherwise
    the tick's candle is appended (after the stored elements, themselves
    unchanged when the history is already enriched), and when that makes more
    than 200 elements the oldest one is dropped.  The merged length never
    exceeds the larger of 200 and the length of [prev]; it never exceeds 200
    when [prev] has at most 200 candles. *)
Theorem streaming_merge formatDate msg random randoms st :
  msg_e msg = "kline"%string ->
  history st <> [] ->
  let prev := history st in
  let n := length prev in
  let label := formatDate (k_t (msg_k msg)) in
  let newCandle := newCandleOf label (msg_k msg) in
  let merged := history (onmessage formatDate msg random randoms st).1 in
  (date (pointAt prev (n - 1)) = label ->
     length merged = n
     /\ candleOf <$> merged
        = <[(n - 1)%nat := candleOf newCandle]> (candleOf <$> prev)
     /\ (enrichDataWithIndicators prev = prev ->
         forall i, (i < n - 1)%nat -> merged !! i = prev !! i))
  /\ (date (pointAt prev (n - 1)) <> label ->
      ((n < 200)%nat ->
       candleOf <$> merged = candleOf <$> (prev ++ [newCandle])
       /\ (enrichDataWithIndicators prev = prev ->
           forall i, (i < n)%nat -> merged !! i = prev !! i))
      /\ ((200 <= n)%nat ->
          candleOf <$> merged = candleOf <$> (drop 1 prev ++ [newCandle])))
  /\ ((n <= 200)%nat -> (length merged <= 200)%nat)
  /\ (length merged <= Nat.max n 200)%nat.
Proof.
  intros He Hne prev n label newCandle merged.
  assert (Hm : merged = enrichDataWithIndicators
                          (updateOrAppend prev label (msg_k msg))).
  { apply onmessage_history; assumption. }
  assert (Hlen : length merged
                 = if String.eqb (date (pointAt prev (n - 1))) label
                   then n
                   else if (n <? 200)%nat then S n else n).
  { rewrite Hm, enrich_length. apply updateOrAppend_length. exact Hne. }
  clearbody merged. subst merged.
  split; [|split; [|split]].
  - intros Hsame.
    rewrite (proj2 (String.eqb_eq _ _) Hsame) in Hlen.
    split; [exact Hlen|].
    rewrite enrich_candles.
    rewrite (updateOrAppend_same prev label (msg_k msg) Hsame).
    split.
    + rewrite list_fmap_insert. reflexivity.
    + intros Hfix i Hi. rewrite enrich_insert_before by exact Hi.
      rewrite Hfix. reflexivity.
  - intros Hnew.
    rewrite (updateOrAppend_new prev label (msg_k msg) Hnew).
    fold newCandle. rewrite length_app. cbn [length]. fold n.
    split; intros Hn.
    + replace (200 <? n + 1)%nat with false
        by (symmetry; apply Nat.ltb_ge; lia).
      split; [apply enrich_candles|].
      intros Hfix i Hi. rewrite enrich_app_before by exact Hi.
      rewrite Hfix. reflexivity.
    + replace (200 <? n + 1)%nat with true
        by (symmetry; apply Nat.ltb_lt; lia).
      rewrite enrich_candles, tail_snoc by exact Hne. reflexivity.
  - intros Hn. rewrite Hlen.
    destruct (String.eqb _ label); [exact Hn|].
    destruct (n <? 200)%nat eqn:E; [apply Nat.ltb_lt in E; lia | exact Hn].
  - rewrite Hlen.
    destruct (String.eqb _ label); [lia|].
    destruct (n <? 200)%nat eqn:E; [apply Nat.ltb_lt in E; lia | lia].
Qed.

Lemma streaming_merge_witness :
  length (history (onmessage (labelled "c") tick 0%R noRandom three).1) = 3%nat
  /\ (length (history (onmessage (labelled "c") tick 0%R noRandom three).1)
      <= 200)%nat.
Proof.
  pose proof (streaming_merge (labelled "c") tick 0%R noRandom three) as H.
  cbv zeta in H.
  destruct H as (Hsame & _ & Hbound & _); [reflexivity | discriminate |].
  split.
  - apply Hsame. reflexivity.
  - apply Hbound. simpl. lia.
Defined.

Lemma backtest_invariant_witness :
  let data := replicate 52 (flatPoint "t" 1) in
  0 <= balance (backtestAfter data noRandom 10000 2)
  /\ 0 <= shares (backtestAfter data noRandom 10000 2).
Proof.
  intros data.
  apply (backtest_invariant data 10000 noRandom).
  - apply Forall_replicate. simpl. lra.
  - lra.
  - unfold data, startIdx. rewrite length_replicate. lia.
Defined.

(** ** The model on sample inputs *)

Example calculateSMA_last_two : calculateSMA [1; 2; 3; 4] 2 = 3.5.
Proof.
  unfold calculateSMA, slice_last, total.
  cbn [length Nat.ltb Nat.leb Nat.sub drop fold_left INR].
  lra.
Qed.

Example enrich_flat20_last :
  sma20 (enrichPoint (price <$> flat20) 19 (flatPoint "t" 1)) = Some 1
  /\ sma50 (enrichPoint (price <$> flat20) 19 (flatPoint "t" 1)) = None.
Proof.
  split; [|reflexivity].
  unfold enrichPoint, flat20. cbn [sma20].
  cbn -[Rplus Rdiv IZR]. f_equal. unfold total. cbn [fold_left]. lra.
Qed.

(** [[A, B, C]] and a tick labelled as [C]: [[A, B, C']]. *)
Example merge_same_label :
  candleOf <$> history (onmessage (labelled "c") tick 0%R noRandom
                          three).1
  = [("a", 1, None, None, None); ("b", 2, None, None, None);
     ("c", 1, Some 1, Some 1, Some 1)]%string.
Proof.
  rewrite onmessage_history by (reflexivity || discriminate).
  rewrite enrich_candles. reflexivity.
Qed.

(** [[A, B, C]] and a tick with a new label: [[A, B, C, D]]. *)
Example merge_new_label :
  candleOf <$> history (onmessage (labelled "d") tick 0%R noRandom
                          three).1
  = [("a", 1, None, None, None); ("b", 2, None, None, None);
     ("c", 3, None, None, None); ("d", 1, Some 1, Some 1, Some 1)]%string.
Proof.
  rewrite onmessage_history by (reflexivity || discriminate).
  rewrite enrich_candles. reflexivity.
Qed.

(** A flat series of 20 closes at 1: the mean is 1, the deviation 0, both
    bands sit on the mean, and the 50-period mean is the 0 of a short
    history, which makes the trend UP. *)
Example snapshot_flat20 :
  let ind := performTechnicalAnalysis flat20 in
  ind_sma20 ind = 1 /\ ind_sma50 ind = 0
  /\ bollinger ind = mkBollinger 1 1 1 /\ trend ind = UP.
Proof.
  assert (Hsma : calculateSMA (price <$> flat20) 20 = 1).
  { unfold calculateSMA, slice_last, total, flat20.
    cbn [replicate fmap list_fmap length Nat.ltb Nat.leb Nat.sub drop
         fold_left price flatPoint].
    assert (INR 20 = 20) as -> by (simpl; lra). lra. }
  assert (Hdev : calculateStdDev (price <$> flat20) 20 = 0).
  { unfold calculateStdDev. rewrite Hsma.
    unfold slice_last, total, flat20.
    cbn [replicate fmap list_fmap length Nat.ltb Nat.leb Nat.sub drop
         fold_left price flatPoint].
    assert (INR 20 = 20) as -> by (simpl; lra).
    match goal with |- sqrt ?x = 0 => replace x with 0 by lra end.
    apply sqrt_0. }
  assert (Hsma50 : calculateSMA (price <$> flat20) 50 = 0) by reflexivity.
  intros ind. subst ind. unfold performTechnicalAnalysis.
  cbn [ind_sma20 ind_sma50 bollinger trend].
  rewrite Hsma, Hdev, Hsma50.
  split; [reflexivity|]. split; [reflexivity|]. split; [f_equal; lra|].
  cmp_cases; try reflexivity; lra.
Qed.

(** * Further properties of the engine *)

(** ** Windows and means *)

Lemma slice_last_length {A} (n : nat) (l : list A) :
  (n <= length l)%nat -> length (slice_last n l) = n.
Proof. intros H. unfold slice_last. rewrite length_drop. lia. Qed.

Lemma slice_last_app {A} (n : nat) (pre l : list A) :
  (n <= length l)%nat -> slice_last n (pre ++ l) = slice_last n l.
Proof.
  intros H. unfold slice_last. rewrite length_app.
  rewrite drop_app_ge by lia. f_equal. lia.
Qed.

(** The snapshot reads only the tail of the series. *)
Lemma calculateSMA_app (pre l : list R) (period : nat) :
  (period <= length l)%nat ->
  calculateSMA (pre ++ l) period = calculateSMA l period.
Proof.
  intros H. unfold calculateSMA. rewrite length_app.
  replace (length pre + length l <? period)%nat with false
    by (symmetry; apply Nat.ltb_ge; lia).
  replace (length l <? period)%nat with false
    by (symmetry; apply Nat.ltb_ge; lia).
  rewrite slice_last_app by exact H. reflexivity.
Qed.

Lemma calculateStdDev_app (pre l : list R) (period : nat) :
  (period <= length l)%nat ->
  calculateStdDev (pre ++ l) period = calculateStdDev l period.
Proof.
  intros H. unfold calculateStdDev.
  rewrite calculateSMA_app, slice_last_app by exact H.
  rewrite length_app.
  replace (length pre + length l <? period)%nat with false
    by (symmetry; apply Nat.ltb_ge; lia).
  replace (length l <? period)%nat with false
    by (symmetry; apply Nat.ltb_ge; lia).
  reflexivity.
Qed.

(** ** RSI: extremes *)

Lemma total_zero (l : list R) : Forall (fun x => x = 0) l -> total l = 0.
Proof.
  induction 1 as [|x l Hx _ IH].
  - apply total_nil.
  - rewrite total_cons, IH, Hx. lra.
Qed.

Lemma total_pos_exists (l : list R) :
  Forall (fun x => 0 <= x) l -> Exists (fun x => 0 < x) l -> 0 < total l.
Proof.
  induction 1 as [|x l Hx Hl IH]; intros Hex.
  - inversion Hex.
  - rewrite total_cons. pose proof (total_nonneg l Hl).
    inversion Hex; subst; [lra|]. specialize (IH ltac:(assumption)). lra.
Qed.

(** The value of [calculateRSI] on 15 points or more, through the averages. *)
Lemma calculateRSI_long (prices : list R) :
  (15 <= length prices)%nat ->
  calculateRSI prices 14
  = if req (avgLossSpec prices 14) 0 then 100
    else 100 - 100 / (1 + avgGainSpec prices 14 / avgLossSpec prices 14).
Proof.
  intros H. unfold calculateRSI.
  replace (length prices <? 14 + 1)%nat with false
    by (symmetry; apply Nat.ltb_ge; lia).
  destruct (rsiLoop_spec prices 14) as [-> ->]; [lia|]. reflexivity.
Qed.

(** X2. Extremes of [calculateRSI] on 15 points or more: when none of the
    last 14 transitions is a fall (a flat series included) the value is 100;
    when none is a rise and one at least is a fall, the value is 0. *)
Theorem calculateRSI_extremes (prices : list R) :
  (15 <= length prices)%nat ->
  (Forall (fun d => 0 <= d) (slice_last 14 (deltas prices)) ->
   calculateRSI prices 14 = 100)
  /\ (Forall (fun d => d <= 0) (slice_last 14 (deltas prices)) ->
      Exists (fun d => d < 0) (slice_last 14 (deltas prices)) ->
      calculateRSI prices 14 = 0).
Proof.
  intros Hlen. rewrite (calculateRSI_long prices Hlen).
  assert (H14 : INR 14 = 14) by (simpl; lra).
  split.
  - intros Hup.
    assert (Hl : avgLossSpec prices 14 = 0).
    { unfold avgLossSpec. rewrite total_zero; [lra|].
      apply Forall_fmap. eapply Forall_impl; [exact Hup|].
      intros d Hd. unfold compose, lossOf. cmp_cases; lra. }
    rewrite (proj2 (req_true _ _) Hl). reflexivity.
  - intros Hdown Hex.
    assert (Hg : avgGainSpec prices 14 = 0).
    { unfold avgGainSpec. rewrite total_zero; [lra|].
      apply Forall_fmap. eapply Forall_impl; [exact Hdown|].
      intros d Hd. unfold compose, gainOf. cmp_cases; lra. }
    assert (Hl : 0 < avgLossSpec prices 14).
    { unfold avgLossSpec. rewrite H14.
      assert (0 < total (lossOf <$> slice_last 14 (deltas prices))); [|lra].
      apply total_pos_exists.
      - apply Forall_fmap, Forall_forall. intros d _. apply lossOf_nonneg.
      - apply Exists_fmap. eapply Exists_impl; [exact Hex|].
        intros d Hd. unfold compose.
        destruct (lossOf_down d Hd) as [_ ->]. lra. }
    rewrite (proj2 (req_false _ _)) by lra.
    rewrite Hg. unfold Rdiv at 2. rewrite Rmult_0_l, Rplus_0_r. lra.
Qed.

Lemma calculateRSI_extremes_witness :
  calculateRSI (replicate 15 1) 14 = 100.
Proof.
  apply (calculateRSI_extremes (replicate 15 1)).
  - simpl. lia.
  - unfold slice_last. cbn [replicate deltas length Nat.sub drop].
    repeat (constructor; [lra|]). constructor.
Defined.

(** ** Average true range *)

Lemma price_pointAt (s : list ChartDataPoint) (i : nat) :
  price (pointAt s i) = at_ (price <$> s) i.
Proof.
  unfold pointAt, at_. rewrite !nth_lookup, list_lookup_fmap.
  destruct (s !! i); reflexivity.
Qed.

Lemma pointAt_lookup (s : list ChartDataPoint) (i : nat) :
  (i < length s)%nat -> s !! i = Some (pointAt s i).
Proof.
  intros Hi. destruct (lookup_lt_is_Some_2 s i Hi) as [x Hx].
  unfold pointAt. rewrite (nth_lookup_Some _ _ _ _ Hx). exact Hx.
Qed.

(** A loop that adds one term per index sums those terms. *)
Lemma fold_left_adds (f : R -> nat -> R) (g : nat -> R) (l : list nat) (a : R) :
  (forall i acc, i ∈ l -> f acc i = acc + g i) ->
  fold_left f l a = a + total (g <$> l).
Proof.
  revert a. induction l as [|i l IH]; intros a Hf.
  - simpl. rewrite total_nil. lra.
  - cbn [fold_left fmap list_fmap]. rewrite total_cons.
    rewrite IH by (intros; apply Hf; right; assumption).
    rewrite Hf by left. lra.
Qed.

Lemma atrStep_adds (s : list ChartDataPoint) (acc : R) (i : nat) :
  atrStep s acc i = acc + trueRangeAt s i.
Proof. unfold trueRangeAt, atrStep. lra. Qed.

Lemma trueRangeAt_nonneg (s : list ChartDataPoint) (i : nat) :
  0 <= trueRangeAt s i.
Proof.
  unfold trueRangeAt, atrStep. rewrite Rplus_0_l.
  eapply Rle_trans; [apply Rabs_pos|]. apply Rbasic_fun.Rmax_r.
Qed.

(** X4. The average true range is never negative, whatever the candles and
    for every period of at least one bar. *)
Theorem calculateATR_nonneg (s : list ChartDataPoint) (period : nat) :
  (0 < period)%nat -> 0 <= calculateATR s period.
Proof.
  intros Hp. unfold calculateATR.
  destruct (length s <? period + 1)%nat; [lra|].
  rewrite (fold_left_adds _ (trueRangeAt s))
    by (intros; apply atrStep_adds).
  apply div_nonneg; [|apply lt_0_INR; lia].
  rewrite Rplus_0_l. apply total_nonneg, Forall_fmap, Forall_forall.
  intros i _. apply trueRangeAt_nonneg.
Qed.

Lemma calculateATR_nonneg_witness : 0 <= calculateATR flat20 14.
Proof. apply (calculateATR_nonneg flat20 14). lia. Defined.

(** X5. For candles that carry no high and no low (an imported series), the
    true range of a bar is the absolute change of the close, so the average
    true range is the mean absolute close-to-close change over the last
    [period] transitions. *)
Theorem calculateATR_closes_only (s : list ChartDataPoint) (period : nat) :
  (period + 1 <= length s)%nat ->
  Forall (fun p => high p = None /\ low p = None) s ->
  calculateATR s period
  = total (Rabs <$> slice_last period (deltas (price <$> s))) / INR period.
Proof.
  intros Hlen Hall. unfold calculateATR.
  replace (length s <? period + 1)%nat with false
    by (symmetry; apply Nat.ltb_ge; lia).
  rewrite last_deltas by (rewrite length_fmap; exact Hlen).
  rewrite length_fmap, <- list_fmap_compose.
  rewrite (fold_left_adds _ (Rabs ∘ diffAt (price <$> s))).
  - rewrite Rplus_0_l. reflexivity.
  - intros i acc Hi. apply elem_of_seq in Hi.
    assert (Hin : (i < length s)%nat) by lia.
    pose proof (proj1 (Forall_lookup _ s) Hall i _ (pointAt_lookup s i Hin))
      as [Hh Hl].
    unfold atrStep. rewrite Hh, Hl. cbn [orElse].
    rewrite !price_pointAt. unfold compose, diffAt.
    set (d := at_ (price <$> s) i - at_ (price <$> s) (i - 1)).
    replace (at_ (price <$> s) i - at_ (price <$> s) i) with 0 by lra.
    pose proof (Rabs_pos d).
    rewrite (Rmax_right 0 (Rabs d)) by assumption.
    rewrite (Rmax_right (Rabs d) (Rabs d)) by lra. reflexivity.
Qed.

Lemma calculateATR_closes_only_witness :
  calculateATR flat20 14
  = total (Rabs <$> slice_last 14 (deltas (price <$> flat20))) / INR 14.
Proof.
  apply (calculateATR_closes_only flat20 14).
  - simpl. lia.
  - apply Forall_replicate. split; reflexivity.
Defined.

(** ** The snapshot reads only the tail of the series *)

Lemma deltas_length (prices : list R) :
  length (deltas prices) = (length prices - 1)%nat.
Proof. rewrite deltas_seq, length_fmap, length_seq. reflexivity. Qed.

Lemma deltas_app (pre : list R) (b : R) (rest : list R) :
  deltas (pre ++ b :: rest) = deltas (pre ++ [b]) ++ deltas (b :: rest).
Proof.
  induction pre as [|a pre IH]; [reflexivity|].
  destruct pre as [|a' pre].
  - destruct rest; reflexivity.
  - change (deltas ((a :: a' :: pre) ++ b :: rest))
      with ((a' - a) :: deltas ((a' :: pre) ++ b :: rest)).
    rewrite IH. reflexivity.
Qed.

Lemma last_deltas_app (pre l : list R) (period : nat) :
  (period + 1 <= length l)%nat ->
  slice_last period (deltas (pre ++ l)) = slice_last period (deltas l).
Proof.
  intros H. destruct l as [|b rest]; [simpl in H; lia|].
  rewrite deltas_app. apply slice_last_app.
  rewrite deltas_length. lia.
Qed.

Lemma calculateRSI_app (pre l : list R) :
  (15 <= length l)%nat ->
  calculateRSI (pre ++ l) 14 = calculateRSI l 14.
Proof.
  intros H.
  rewrite !calculateRSI_long by (rewrite ?length_app; lia).
  unfold avgLossSpec, avgGainSpec.
  rewrite last_deltas_app by lia. reflexivity.
Qed.

Lemma fold_left_shift {A} (f g : A -> nat -> A) (k : nat) (l : list nat) (a : A) :
  (forall j acc, j ∈ l -> f acc (k + j)%nat = g acc j) ->
  fold_left f (Nat.add k <$> l) a = fold_left g l a.
Proof.
  revert a. induction l as [|j l IH]; intros a Hf; [reflexivity|].
  cbn [fold_left fmap list_fmap].
  rewrite Hf by left. apply IH. intros; apply Hf; right; assumption.
Qed.

Lemma pointAt_app (pre l : list ChartDataPoint) (j : nat) :
  pointAt (pre ++ l) (length pre + j) = pointAt l j.
Proof. unfold pointAt. apply app_nth2_plus. Qed.

Lemma calculateATR_app (pre l : list ChartDataPoint) (period : nat) :
  (period + 1 <= length l)%nat ->
  calculateATR (pre ++ l) period = calculateATR l period.
Proof.
  intros H. unfold calculateATR. rewrite length_app.
  replace (length pre + length l <? period + 1)%nat with false
    by (symmetry; apply Nat.ltb_ge; lia).
  replace (length l <? period + 1)%nat with false
    by (symmetry; apply Nat.ltb_ge; lia).
  f_equal.
  replace (length pre + length l - period)%nat
    with (length pre + (length l - period))%nat by lia.
  rewrite <- fmap_add_seq.
  apply fold_left_shift. intros j acc Hj. apply elem_of_seq in Hj.
  unfold atrStep. rewrite pointAt_app.
  replace (length pre + j - 1)%nat with (length pre + (j - 1))%nat by lia.
  rewrite pointAt_app. reflexivity.
Qed.

(** X6. The snapshot depends on the last 50 candles only: candles older than
    that can be prepended or dropped without changing any field of
    [performTechnicalAnalysis]. *)
Theorem snapshot_reads_last_50 (pre l : list ChartDataPoint) :
  (50 <= length l)%nat ->
  performTechnicalAnalysis (pre ++ l) = performTechnicalAnalysis l.
Proof.
  intros H. unfold performTechnicalAnalysis.
  rewrite fmap_app.
  rewrite calculateRSI_app by (rewrite length_fmap; lia).
  rewrite !calculateSMA_app by (rewrite length_fmap; lia).
  rewrite calculateStdDev_app by (rewrite length_fmap; lia).
  rewrite calculateATR_app by lia.
  reflexivity.
Qed.

Lemma snapshot_reads_last_50_witness :
  performTechnicalAnalysis ([flatPoint "old" 9] ++ replicate 50 (flatPoint "t" 1))
  = performTechnicalAnalysis (replicate 50 (flatPoint "t" 1)).
Proof.
  apply (snapshot_reads_last_50 [flatPoint "old" 9]
           (replicate 50 (flatPoint "t" 1))).
  rewrite length_replicate. lia.
Defined.

(** ** Short histories *)

(** X7. The 0 that stands for a missing mean decides the trend of a short
    history: with fewer than 20 candles the trend is SIDEWAYS, and with 20 to
    49 candles of positive prices it is UP, whatever the prices do. *)
Theorem trend_of_short_history (s : list ChartDataPoint) :
  ((length s < 20)%nat -> trend (performTechnicalAnalysis s) = SIDEWAYS)
  /\ ((20 <= length s < 50)%nat -> Forall (fun p => 0 < price p) s ->
      trend (performTechnicalAnalysis s) = UP).
Proof.
  unfold performTechnicalAnalysis. cbn [trend]. split.
  - intros H.
    rewrite !calculateSMA_short by (rewrite length_fmap; lia).
    cmp_cases; try reflexivity; lra.
  - intros [H20 H50] Hall.
    rewrite (calculateSMA_short _ 50) by (rewrite length_fmap; lia).
    assert (0 < calculateSMA (price <$> s) 20).
    { apply calculateSMA_pos; [rewrite length_fmap; lia|].
      apply Forall_fmap. exact Hall. }
    cmp_cases; try reflexivity; lra.
Qed.

Lemma trend_of_short_history_witness :
  trend (performTechnicalAnalysis [flatPoint "t" 1]) = SIDEWAYS
  /\ trend (performTechnicalAnalysis flat20) = UP.
Proof.
  split.
  - apply (trend_of_short_history [flatPoint "t" 1]). simpl. lia.
  - apply (trend_of_short_history flat20).
    + simpl. lia.
    + apply Forall_replicate. simpl. lra.
Defined.

(** ** Enrichment against the snapshot *)

(** X9. The two paths agree once the window is full: the [sma20] and the two
    bands attached to the point at index [i >= 19] are those of the snapshot
    of the candles [0..i], and so is the [sma50] for [i >= 49]. *)
Theorem enrichment_matches_snapshot (s : list ChartDataPoint) (i : nat)
  (p : ChartDataPoint) :
  enrichDataWithIndicators s !! i = Some p ->
  let ind := performTechnicalAnalysis (slice_to (i + 1) s) in
  ((19 <= i)%nat ->
   sma20 p = Some (ind_sma20 ind)
   /\ bollingerUpper p = Some (upper (bollinger ind))
   /\ bollingerLower p = Some (lower (bollinger ind)))
  /\ ((49 <= i)%nat -> sma50 p = Some (ind_sma50 ind)).
Proof.
  intros Hp ind. rewrite enrich_lookup in Hp.
  destruct (s !! i) as [x|] eqn:Hx; [|discriminate].
  injection Hp as <-.
  assert (Hi : (i < length s)%nat) by (eapply lookup_lt_Some, Hx).
  assert (Hslice : slice_to (i + 1) (price <$> s)
                   = price <$> slice_to (i + 1) s).
  { unfold slice_to. symmetry. apply fmap_take. }
  assert (Hlen : length (price <$> slice_to (i + 1) s) = (i + 1)%nat).
  { unfold slice_to. rewrite length_fmap, length_take. lia. }
  assert (H20 : INR 20 = 20) by (simpl; lra).
  assert (H50 : INR 50 = 50) by (simpl; lra).
  subst ind. unfold performTechnicalAnalysis, enrichPoint, bands.
  cbn [sma20 sma50 bollingerUpper bollingerLower ind_sma20 ind_sma50
       bollinger upper lower].
  rewrite Hslice, Hlen. unfold calculateStdDev, calculateSMA.
  rewrite Hlen, H20, H50. split.
  - intros H19.
    replace (20 <=? i + 1)%nat with true by (symmetry; apply Nat.leb_le; lia).
    replace (i + 1 <? 20)%nat with false by (symmetry; apply Nat.ltb_ge; lia).
    cbn [fst snd]. auto.
  - intros H49.
    replace (50 <=? i + 1)%nat with true by (symmetry; apply Nat.leb_le; lia).
    replace (i + 1 <? 50)%nat with false by (symmetry; apply Nat.ltb_ge; lia).
    reflexivity.
Qed.

Lemma enrichment_matches_snapshot_witness :
  sma20 (enrichPoint (price <$> flat20) 19 (flatPoint "t" 1))
  = Some (ind_sma20 (performTechnicalAnalysis (slice_to (19 + 1) flat20))).
Proof.
  apply (enrichment_matches_snapshot flat20 19 _ eq_refl). lia.
Defined.

(** X10. Enrichment has no look-ahead: the enriched points of a series stay
    the same when later candles are appended. *)
Theorem enrichment_is_causal (s k : list ChartDataPoint) :
  take (length s) (enrichDataWithIndicators (s ++ k))
  = enrichDataWithIndicators s.
Proof.
  apply list_eq. intros i.
  destruct (decide (i < length s)%nat) as [Hi|Hi].
  - rewrite lookup_take_lt by exact Hi. apply enrich_app_before, Hi.
  - rewrite lookup_take_ge by lia. symmetry.
    apply lookup_ge_None. rewrite enrich_length. lia.
Qed.

(** Enrichment never touches the candle itself: the label, close,
    volume, high and low of every point, and the number of points, are those
    of the input. *)
Theorem enrichment_keeps_candles (s : list ChartDataPoint) :
  length (enrichDataWithIndicators s) = length s
  /\ candleOf <$> enrichDataWithIndicators s = candleOf <$> s.
Proof.
  split.
  - unfold enrichDataWithIndicators. apply length_imap.
  - apply list_eq. intros i.
    rewrite !list_lookup_fmap, enrich_lookup.
    destruct (s !! i); reflexivity.
Qed.

(** ** The scorer: range and what a confident signal needs *)

Lemma scoreOf_nodes (ind : TechnicalIndicators) (currentPrice : R) :
  scoreOf ind currentPrice
  = trendNode ind currentPrice + meanReversionNode ind
    + squeezeNode ind currentPrice + momentumNode ind.
Proof.
  unfold scoreOf, trendNode, meanReversionNode, squeezeNode, momentumNode,
    trendScoreOf, bbWidthOf. cbv zeta.
  destruct (lessThan
              (divide (upper (bollinger ind) - lower (bollinger ind))
                      (middle (bollinger ind))) 0.05);
    destruct (trend ind); cbn [trendEq andb];
    cmp_cases; cbn [andb]; try lra; exfalso; lra.
Qed.

Lemma trendNode_range ind price_ : -30 <= trendNode ind price_ <= 30.
Proof.
  unfold trendNode. destruct (trend ind); cbn [trendEq andb];
    cmp_cases; lra.
Qed.

Lemma squeezeNode_range ind price_ : -20 <= squeezeNode ind price_ <= 20.
Proof.
  unfold squeezeNode. cbv zeta.
  destruct (lessThan _ 0.05); cmp_cases; lra.
Qed.

Lemma momentumNode_range ind : -10 <= momentumNode ind <= 10.
Proof. unfold momentumNode. cmp_cases; lra. Qed.

Lemma meanReversionNode_range ind :
  -40 <= meanReversionNode ind <= 40
  /\ (30 <= rsi ind -> meanReversionNode ind <= 0)
  /\ (rsi ind <= 70 -> 0 <= meanReversionNode ind).
Proof. unfold meanReversionNode. cmp_cases; repeat split; intros; lra. Qed.

(** X11. The score of the rule set always lies between -100 and 100. *)
Theorem score_range (ind : TechnicalIndicators) (currentPrice : R) :
  -100 <= scoreOf ind currentPrice <= 100.
Proof.
  rewrite scoreOf_nodes.
  pose proof (trendNode_range ind currentPrice).
  pose proof (squeezeNode_range ind currentPrice).
  pose proof (momentumNode_range ind).
  pose proof (meanReversionNode_range ind) as [? _].
  lra.
Qed.

(** X12. A confidence above 60 (the entry threshold of the backtest) is never
    reached on HOLD, on BUY it needs an oversold RSI below 30, and on SELL an
    overbought RSI above 70: without the mean-reversion node the other three
    nodes give at most 60. *)
Theorem confident_signal_needs_extreme_rsi (ind : TechnicalIndicators)
  (currentPrice random : R) :
  0 <= random ->
  let p := predictSignalXGBoost ind currentPrice random in
  confidence p > 60 ->
  (signal p = BUY /\ rsi ind < 30) \/ (signal p = SELL /\ rsi ind > 70).
Proof.
  intros Hr p Hc. subst p. unfold predictSignalXGBoost in *.
  cbn [confidence signal] in *.
  pose proof (trendNode_range ind currentPrice).
  pose proof (squeezeNode_range ind currentPrice).
  pose proof (momentumNode_range ind).
  pose proof (meanReversionNode_range ind) as (_ & Hlo & Hhi).
  pose proof (scoreOf_nodes ind currentPrice) as Hsum.
  set (sc := scoreOf ind currentPrice) in *.
  assert (Habs : 60 < Rabs sc).
  { revert Hc. unfold Rmax, Rmin.
    repeat match goal with
    | |- context [Rle_dec ?a ?b] => destruct (Rle_dec a b)
    end; intros; lra. }
  unfold Rabs in Habs. destruct (Rcase_abs sc) as [Hneg|Hpos].
  - right. split.
    + cmp_cases; try reflexivity; lra.
    + destruct (Rle_or_lt (rsi ind) 70) as [Hle|Hgt]; [|exact Hgt].
      specialize (Hhi Hle). lra.
  - left. split.
    + cmp_cases; try reflexivity; lra.
    + destruct (Rle_or_lt 30 (rsi ind)) as [Hle|Hgt]; [|exact Hgt].
      specialize (Hlo Hle). lra.
Qed.

Lemma confident_signal_needs_extreme_rsi_witness :
  (signal (predictSignalXGBoost positiveMiddle 4 0.5) = BUY
   /\ rsi positiveMiddle < 30)
  \/ (signal (predictSignalXGBoost positiveMiddle 4 0.5) = SELL
      /\ rsi positiveMiddle > 70).
Proof.
  apply (confident_signal_needs_extreme_rsi positiveMiddle 4 0.5); [lra|].
  unfold predictSignalXGBoost. cbn [confidence].
  rewrite scoreOf_positiveMiddle.
  rewrite (Rabs_right 80) by lra.
  rewrite (Rmin_left 80 98) by lra.
  rewrite Rmax_right by lra. lra.
Defined.

(** ** The backtest: position, counters, drawdown *)

(** What one turn of the loop does to the locals: a buy, a sell or nothing,
    and then the bookkeeping of equity, peak and drawdown. *)
Lemma backtestStep_cases data random st i :
  let st' := backtestStep data random st i in
  let p := price (pointAt data i) in
  let equity := balance st' + shares st' * p in
  ((shares st = 0 /\ balance st' = 0 /\ shares st' = balance st / p
    /\ trades st' = S (trades st) /\ winningTrades st' = winningTrades st)
   \/ (shares st <> 0 /\ balance st' = shares st * p /\ shares st' = 0
       /\ trades st' = trades st
       /\ (winningTrades st' = winningTrades st
           \/ winningTrades st' = S (winningTrades st)))
   \/ (balance st' = balance st /\ shares st' = shares st
       /\ trades st' = trades st /\ winningTrades st' = winningTrades st))
  /\ equityCurve st'
     = equityCurve st ++ [equityPoint (date (pointAt data i)) equity]
  /\ maxBalance st'
     = (if rgt equity (maxBalance st) then equity else maxBalance st)
  /\ maxDrawdown st'
     = (if rgt ((maxBalance st' - equity) / maxBalance st') (maxDrawdown st)
        then (maxBalance st' - equity) / maxBalance st'
        else maxDrawdown st).
Proof.
  unfold backtestStep.
  set (p := price (pointAt data i)).
  set (pr := predictSignalXGBoost _ p (random i)).
  destruct (req (shares st) 0) eqn:E;
    [apply req_true in E | apply req_false in E];
    destruct (signal pr); try destruct (rgt (confidence pr) 60);
    cbn [balance shares trades winningTrades equityCurve maxBalance
         maxDrawdown];
    (split; [|split; [|split]; reflexivity]).
  all: first
    [ solve [right; right; repeat split; reflexivity]
    | solve [left; repeat split; assumption || reflexivity]
    | solve [right; left; repeat split; try assumption; try reflexivity;
             destruct (rgt (shares st * p) (maxBalance st)); auto] ].
Qed.

Lemma backtestAfter_curve_length data random initialBalance n :
  length (equityCurve (backtestAfter data random initialBalance n)) = n.
Proof.
  induction n as [|n IH]; [reflexivity|].
  rewrite backtestAfter_S.
  destruct (backtestStep_cases data random
              (backtestAfter data random initialBalance n) (startIdx + n))
    as (_ & -> & _).
  rewrite length_app, IH. simpl. lia.
Qed.

Lemma backtestAfter_single_position data random initialBalance n :
  balance (backtestAfter data random initialBalance n) = 0
  \/ shares (backtestAfter data random initialBalance n) = 0.
Proof.
  induction n as [|n IH]; [right; reflexivity|].
  rewrite backtestAfter_S.
  destruct (backtestStep_cases data random
              (backtestAfter data random initialBalance n) (startIdx + n))
    as ([(_ & Hb & _)|[(_ & _ & Hs & _)|(Hb & Hs & _)]] & _).
  - left. exact Hb.
  - right. exact Hs.
  - rewrite Hb, Hs. exact IH.
Qed.

(** X13. The strategy is all-in or all-out: after every turn of the loop of
    [runBacktest] either the cash balance or the position is zero. *)
Theorem backtest_single_position (data : list ChartDataPoint)
  (initialBalance : R) (random : nat -> R) (n : nat) :
  (n <= length data - startIdx)%nat ->
  balance (backtestAfter data random initialBalance n) = 0
  \/ shares (backtestAfter data random initialBalance n) = 0.
Proof.
  intros _.
  destruct (backtestAfter_single_position data random initialBalance n);
    [left | right]; assumption.
Qed.

Lemma backtest_single_position_witness :
  balance (backtestAfter (replicate 52 (flatPoint "t" 1)) noRandom 10000 2) = 0
  \/ shares (backtestAfter (replicate 52 (flatPoint "t" 1)) noRandom 10000 2)
     = 0.
Proof.
  apply (backtest_single_position (replicate 52 (flatPoint "t" 1)) 10000
           noRandom 2).
  rewrite length_replicate. unfold startIdx. lia.
Defined.

Lemma backtestAfter_counters data random initialBalance n :
  let st := backtestAfter data random initialBalance n in
  (shares st = 0 -> (winningTrades st <= trades st)%nat)
  /\ (shares st <> 0 -> (winningTrades st + 1 <= trades st)%nat)
  /\ (trades st <= n)%nat.
Proof.
  induction n as [|n IH].
  - cbn. repeat split; intros; try lia. exfalso; auto.
  - cbv zeta in *. rewrite backtestAfter_S.
    set (st := backtestAfter data random initialBalance n) in *.
    destruct IH as (Hflat & Hheld & Hn).
    destruct (backtestStep_cases data random st (startIdx + n))
      as ([(Hs & _ & _ & Ht & Hw)|[(Hs & _ & Hs' & Ht & Hw)|(_ & Hs & Ht & Hw)]]
          & _).
    + rewrite Ht, Hw. specialize (Hflat Hs). repeat split; intros; lia.
    + rewrite Ht. specialize (Hheld Hs).
      destruct Hw as [Hw|Hw]; rewrite Hw;
        repeat split; intros; try contradiction; lia.
    + rewrite Ht, Hw, Hs. repeat split; intros; auto; lia.
Qed.

(** X14. The counters of [runBacktest]: the winning trades never outnumber
    the trades (buys), and the trades never outnumber the bars replayed. *)
Theorem backtest_counters (data : list ChartDataPoint) (initialBalance : R)
  (random : nat -> R) :
  let r := runBacktest data initialBalance random in
  (res_winningTrades r <= res_trades r)%nat
  /\ (res_trades r <= length data - startIdx)%nat.
Proof.
  intros r. subst r. unfold runBacktest.
  cbn [res_winningTrades res_trades].
  destruct (backtestAfter_counters data random initialBalance
              (length data - startIdx)) as (Hflat & Hheld & Hn).
  split; [|exact Hn].
  destruct (Req_dec_T
              (shares (backtestAfter data random initialBalance
                         (length data - startIdx))) 0) as [Hz|Hnz].
  - apply Hflat, Hz.
  - specialize (Hheld Hnz). lia.
Qed.

Lemma drawdown_step_range (mb equity : R) :
  0 < mb -> 0 <= equity <= mb -> 0 <= (mb - equity) / mb <= 1.
Proof.
  intros Hmb He. split.
  - apply div_nonneg; lra.
  - apply Rmult_le_reg_r with mb; [exact Hmb|].
    unfold Rdiv. rewrite Rmult_assoc, Rinv_l by lra. lra.
Qed.

Lemma backtestAfter_peak data random initialBalance n :
  Forall (fun p => 0 < price p) data -> 0 < initialBalance ->
  (n <= length data - startIdx)%nat ->
  let st := backtestAfter data random initialBalance n in
  initialBalance <= maxBalance st
  /\ 0 <= maxDrawdown st <= 1
  /\ Forall (fun p => 0 <= price p <= maxBalance st) (equityCurve st).
Proof.
  intros Hall H0. induction n as [|n IH]; intros Hn.
  - cbn. repeat split; try lra. constructor.
  - cbv zeta in *. rewrite backtestAfter_S.
    set (st := backtestAfter data random initialBalance n) in *.
    destruct IH as (Hpeak & Hdd & Hcurve); [lia|].
    destruct (backtestAfter_inv data random initialBalance (S n) Hall)
      as (Hb & Hs & _); [lra | lia |].
    rewrite backtestAfter_S in Hb, Hs. fold st in Hb, Hs.
    assert (Hp : 0 < price (pointAt data (startIdx + n))).
    { apply price_positive_at; [exact Hall | lia]. }
    destruct (backtestStep_cases data random st (startIdx + n))
      as (_ & Hc & Hmb & Hmd).
    set (st' := backtestStep data random st (startIdx + n)) in *.
    set (equity := balance st' + shares st' * price (pointAt data (startIdx + n)))
      in *.
    assert (Heq : 0 <= equity).
    { subst equity. pose proof (Rmult_le_pos _ _ Hs (Rlt_le _ _ Hp)). lra. }
    assert (Hmb' : maxBalance st <= maxBalance st' /\ equity <= maxBalance st').
    { rewrite Hmb. destruct (rgt equity (maxBalance st)) eqn:E;
        [apply rgt_true in E | apply rgt_false in E]; lra. }
    destruct Hmb' as [Hmono Htop].
    pose proof (drawdown_step_range (maxBalance st') equity) as Hrange.
    split; [lra|]. split.
    + rewrite Hmd.
      destruct (rgt ((maxBalance st' - equity) / maxBalance st')
                    (maxDrawdown st)); [apply Hrange; lra | exact Hdd].
    + rewrite Hc. apply Forall_app. split.
      * eapply Forall_impl; [exact Hcurve|]. intros q Hq. simpl in Hq. simpl. lra.
      * constructor; [|constructor]. cbn [equityPoint price]. lra.
Qed.

(** X15. For candles with positive prices and a positive starting capital,
    the maximum drawdown reported by [runBacktest] lies between 0 and 100
    (percent), and every point of the equity curve is non-negative. *)
Theorem backtest_drawdown_range (data : list ChartDataPoint)
  (initialBalance : R) (random : nat -> R) :
  Forall (fun p => 0 < price p) data ->
  0 < initialBalance ->
  let r := runBacktest data initialBalance random in
  0 <= res_maxDrawdown r <= 100
  /\ Forall (fun p => 0 <= price p) (res_equityCurve r).
Proof.
  intros Hall H0 r. subst r. unfold runBacktest.
  cbn [res_maxDrawdown res_equityCurve].
  destruct (backtestAfter_peak data random initialBalance
              (length data - startIdx) Hall H0) as (_ & Hdd & Hcurve); [lia|].
  split; [lra|].
  eapply Forall_impl; [exact Hcurve|]. intros q Hq. simpl in Hq. lra.
Qed.

Lemma backtest_drawdown_range_witness :
  0 <= res_maxDrawdown
         (runBacktest (replicate 52 (flatPoint "t" 1)) 10000 noRandom) <= 100.
Proof.
  apply (backtest_drawdown_range (replicate 52 (flatPoint "t" 1)) 10000
           noRandom).
  - apply Forall_replicate. simpl. lra.
  - lra.
Defined.

Lemma backtestAfter_labels data random initialBalance n :
  (n <= length data - startIdx)%nat ->
  date <$> equityCurve (backtestAfter data random initialBalance n)
  = date <$> take n (drop startIdx data).
Proof.
  induction n as [|n IH]; intros Hn; [reflexivity|].
  rewrite backtestAfter_S.
  destruct (backtestStep_cases data random
              (backtestAfter data random initialBalance n) (startIdx + n))
    as (_ & -> & _).
  rewrite fmap_app, IH by lia.
  rewrite (take_S_r _ n (pointAt data (startIdx + n))).
  - rewrite fmap_app. reflexivity.
  - rewrite lookup_drop. apply pointAt_lookup. lia.
Qed.

(** X17. The equity curve of [runBacktest] has one point per candle from
    index 50 on, labelled with the dates of those candles in order. *)
Theorem backtest_curve_labels (data : list ChartDataPoint)
  (initialBalance : R) (random : nat -> R) :
  date <$> res_equityCurve (runBacktest data initialBalance random)
  = date <$> drop startIdx data.
Proof.
  unfold runBacktest. cbn [res_equityCurve].
  rewrite backtestAfter_labels by lia.
  rewrite take_ge by (rewrite length_drop; lia). reflexivity.
Qed.

Lemma backtestStep_prefix data future random st i :
  (i < length data)%nat ->
  backtestStep (data ++ future) random st i = backtestStep data random st i.
Proof.
  intros Hi. unfold backtestStep, slice_to.
  rewrite take_app_le by lia.
  replace (pointAt (data ++ future) i) with (pointAt data i)
    by (unfold pointAt; symmetry; apply app_nth1; exact Hi).
  reflexivity.
Qed.

Lemma backtestAfter_prefix data future random initialBalance n :
  (n <= length data - startIdx)%nat ->
  backtestAfter (data ++ future) random initialBalance n
  = backtestAfter data random initialBalance n.
Proof.
  induction n as [|n IH]; intros Hn; [reflexivity|].
  rewrite !backtestAfter_S, IH by lia.
  apply backtestStep_prefix. lia.
Qed.

Lemma backtestAfter_curve_grows data random initialBalance n m :
  take n (equityCurve (backtestAfter data random initialBalance (n + m)))
  = equityCurve (backtestAfter data random initialBalance n).
Proof.
  induction m as [|m IH].
  - rewrite Nat.add_0_r. apply take_ge.
    rewrite backtestAfter_curve_length. lia.
  - replace (n + S m)%nat with (S (n + m)) by lia.
    rewrite backtestAfter_S.
    destruct (backtestStep_cases data random
                (backtestAfter data random initialBalance (n + m))
                (startIdx + (n + m))) as (_ & -> & _).
    rewrite take_app_le by (rewrite backtestAfter_curve_length; lia).
    exact IH.
Qed.

(** X18. The backtest has no look-ahead: the locals after each turn depend
    only on the candles seen so far, so replaying a longer series reproduces
    the equity curve of the shorter one as its prefix (for the same draws of
    [Math.random()]). *)
Theorem backtest_no_lookahead (data future : list ChartDataPoint)
  (initialBalance : R) (random : nat -> R) :
  (forall n, (n <= length data - startIdx)%nat ->
     backtestAfter (data ++ future) random initialBalance n
     = backtestAfter data random initialBalance n)
  /\ take (length data - startIdx)
          (res_equityCurve (runBacktest (data ++ future) initialBalance random))
     = res_equityCurve (runBacktest data initialBalance random).
Proof.
  split.
  - intros n Hn. apply backtestAfter_prefix, Hn.
  - unfold runBacktest. cbn [res_equityCurve].
    rewrite length_app.
    destruct (decide (startIdx <= length data)%nat) as [Hlong|Hshort].
    + replace (length data + length future - startIdx)%nat
        with ((length data - startIdx) + length future)%nat by lia.
      rewrite backtestAfter_curve_grows.
      rewrite backtestAfter_prefix by lia. reflexivity.
    + replace (length data - startIdx)%nat with 0%nat by lia.
      reflexivity.
Qed.

Lemma backtest_no_lookahead_witness :
  backtestAfter (replicate 52 (flatPoint "t" 1) ++ [flatPoint "u" 2])
                noRandom 10000 2
  = backtestAfter (replicate 52 (flatPoint "t" 1)) noRandom 10000 2.
Proof.
  apply (backtest_no_lookahead (replicate 52 (flatPoint "t" 1))
           [flatPoint "u" 2] 10000 noRandom).
  rewrite length_replicate. unfold startIdx. lia.
Defined.

(** X19. With 50 candles or fewer the loop of [runBacktest] never runs: no
    trade, an empty equity curve, no drawdown, a final balance equal to the
    initial one and (for a non-zero initial balance) a total return of 0. *)
Theorem backtest_short_series (data : list ChartDataPoint)
  (initialBalance : R) (random : nat -> R) :
  (length data <= startIdx)%nat ->
  initialBalance <> 0 ->
  runBacktest data initialBalance random
  = {| initialBalance := initialBalance; finalBalance := initialBalance;
       totalReturn := 0; res_trades := 0; res_winningTrades := 0;
       res_maxDrawdown := 0; res_equityCurve := [] |}.
Proof.
  intros Hlen Hb. unfold runBacktest.
  replace (length data - startIdx)%nat with 0%nat by lia.
  unfold backtestAfter, backtestInit.
  cbn [seq fold_left equityCurve trades winningTrades maxDrawdown last].
  f_equal; [|lra]. field. exact Hb.
Qed.

Lemma backtest_short_series_witness :
  res_equityCurve (runBacktest flat20 10000 noRandom) = [].
Proof.
  rewrite (backtest_short_series flat20 10000 noRandom).
  - reflexivity.
  - unfold flat20, startIdx. rewrite length_replicate. lia.
  - lra.
Defined.

(** ** The fetch cache: what is stored, what a hit ignores *)

Lemma enrich_twice (s : list ChartDataPoint) :
  enrichDataWithIndicators (enrichDataWithIndicators s)
  = enrichDataWithIndicators s.
Proof.
  apply list_eq. intros i.
  rewrite (enrich_lookup (enrichDataWithIndicators s)), enrich_prices.
  rewrite enrich_lookup. destruct (s !! i); reflexivity.
Qed.

Lemma fetch_cases env symbol interval limit marketType now w :
  let key := cacheKey symbol interval marketType in
  let request := requestFor env symbol interval limit marketType in
  let out := fetchCryptoData env symbol interval limit marketType now w in
  (exists e, DATA_CACHE w !! key = Some e
             /\ (now - timestamp e < CACHE_DURATION)%Z
             /\ out = (data e, w))
  \/ (exists rows, cacheHit w key now = None
                   /\ fetch env now request = Some rows
                   /\ out = (enrichDataWithIndicators rows,
                             {| DATA_CACHE :=
                                  <[key := mkEntry now
                                             (enrichDataWithIndicators rows)]>
                                    (DATA_CACHE w);
                                requests := request :: requests w |}))
  \/ (cacheHit w key now = None
      /\ fetch env now request = None
      /\ out.1 = enrichDataWithIndicators
                   (generateHistory env now
                      (orElse (assoc (toUpperCase env symbol) basePriceMap) 100)
                      (INR limit / 24))
      /\ out.2 = {| DATA_CACHE := DATA_CACHE w;
                    requests := request :: requests w |}).
Proof.
  intros key request out. subst out. unfold fetchCryptoData.
  fold key. fold request.
  destruct (cacheHit w key now) as [e|] eqn:Hhit.
  - left. exists e. apply cacheHit_Some in Hhit as [He Hage]. auto.
  - right. destruct (fetch env now request) as [rows|].
    + left. exists rows. auto.
    + right. auto.
Qed.

(** X20. The cache only ever holds enriched series: if every cached series
    is a fixed point of [enrichDataWithIndicators] before a call of
    [fetchCryptoData], the same holds after it, and the series returned
    (cached, live or simulated) is a fixed point too. *)
Theorem fetch_keeps_cache_enriched env symbol interval limit marketType
  (now : Z) (w : World) :
  cacheEnriched w ->
  let out := fetchCryptoData env symbol interval limit marketType now w in
  cacheEnriched out.2 /\ enrichDataWithIndicators out.1 = out.1.
Proof.
  intros Hw out. subst out.
  destruct (fetch_cases env symbol interval limit marketType now w)
    as [(e & He & _ & ->)|[(rows & _ & _ & ->)|(_ & _ & H1 & H2)]].
  - split; [exact Hw|]. cbn [fst]. apply (Hw _ _ He).
  - split; [|apply enrich_twice].
    intros k e. cbn [snd DATA_CACHE].
    destruct (decide (cacheKey symbol interval marketType = k)) as [<-|Hne].
    + rewrite lookup_insert_eq. intros [= <-]. apply enrich_twice.
    + rewrite lookup_insert_ne by exact Hne. apply Hw.
  - split.
    + intros k e. rewrite H2. apply Hw.
    + rewrite H1. apply enrich_twice.
Qed.

Lemma fetch_keeps_cache_enriched_witness :
  cacheEnriched
    (fetchCryptoData quietEnv "BTC" TF_1h 200 FUTURES 60000 stampedWorld).2.
Proof.
  apply (fetch_keeps_cache_enriched quietEnv "BTC" TF_1h 200 FUTURES 60000
           stampedWorld).
  intros k e He. unfold stampedWorld in He. cbn [DATA_CACHE] in He.
  apply lookup_singleton_Some in He as [_ <-]. reflexivity.
Defined.

(** X21. The limit is not part of the cache key: once a fetch has been
    answered and stored, a fetch for the same symbol, interval and market type
    less than 60000 ms later returns that stored series whatever limit it
    asks for, and sends no request. *)
Theorem fetch_hit_ignores_limit env symbol interval marketType
  (limit1 limit2 : nat) (t1 t2 : Z) (w : World) (rows : list ChartDataPoint) :
  cacheHit w (cacheKey symbol interval marketType) t1 = None ->
  fetch env t1 (requestFor env symbol interval limit1 marketType) = Some rows ->
  (t2 - t1 < CACHE_DURATION)%Z ->
  let first := fetchCryptoData env symbol interval limit1 marketType t1 w in
  fetchCryptoData env symbol interval limit2 marketType t2 first.2
  = (first.1, first.2).
Proof.
  intros Hmiss Hrows Hage first.
  destruct (fetch_miss env symbol interval limit1 marketType w t1 Hmiss)
    as (_ & Hok & _).
  destruct (Hok rows Hrows) as [Hres Hcache]. fold first in Hres, Hcache.
  rewrite Hres.
  apply (fetch_hit env symbol interval limit2 marketType first.2 t2
           (mkEntry t1 (enrichDataWithIndicators rows))).
  - rewrite Hcache. apply lookup_insert_eq.
  - exact Hage.
Qed.

Lemma fetch_hit_ignores_limit_witness :
  let first :=
    fetchCryptoData quietEnv "ETH" TF_1h 60 FUTURES 0 stampedWorld in
  fetchCryptoData quietEnv "ETH" TF_1h 200 FUTURES 1000 first.2
  = (first.1, first.2).
Proof.
  apply (fetch_hit_ignores_limit quietEnv "ETH" TF_1h FUTURES 60 200 0 1000
           stampedWorld []).
  - apply cacheHit_None. left. apply lookup_singleton_ne. discriminate.
  - reflexivity.
  - unfold CACHE_DURATION. lia.
Defined.

(** One call, at most one request: [fetchCryptoData] either leaves the
    request log as it is (a hit) or puts exactly one request in front of it;
    a failed request is not retried. *)
Theorem fetch_at_most_one_request env symbol interval limit marketType
  (now : Z) (w : World) :
  let out := fetchCryptoData env symbol interval limit marketType now w in
  requests out.2 = requests w
  \/ requests out.2
     = requestFor env symbol interval limit marketType :: requests w.
Proof.
  intros out. subst out.
  destruct (fetch_cases env symbol interval limit marketType now w)
    as [(e & _ & _ & ->)|[(rows & _ & _ & ->)|(_ & _ & _ & ->)]].
  - left. reflexivity.
  - right. reflexivity.
  - right. reflexivity.
Qed.

(** ** Cache keys do not collide *)

Lemma list_ascii_app (s1 s2 : string) :
  String.list_ascii_of_string (s1 +:+ s2)
  = String.list_ascii_of_string s1 ++ String.list_ascii_of_string s2.
Proof.
  induction s1 as [|c s1 IH]; [reflexivity|].
  simpl. f_equal. exact IH.
Qed.

Lemma list_ascii_inj (s1 s2 : string) :
  String.list_ascii_of_string s1 = String.list_ascii_of_string s2 -> s1 = s2.
Proof.
  intros H. rewrite <- (String.string_of_list_ascii_of_string s1), H.
  apply String.string_of_list_ascii_of_string.
Qed.

Lemma cacheKey_split symbol interval marketType :
  String.list_ascii_of_string (cacheKey symbol interval marketType)
  = String.list_ascii_of_string symbol
    ++ String.list_ascii_of_string (keySuffix interval marketType).
Proof. unfold cacheKey, keySuffix. apply list_ascii_app. Qed.

(** None of the fourteen suffixes ends with another one. *)
Lemma keySuffix_no_overlap i1 m1 i2 m2 :
  String.list_ascii_of_string (keySuffix i1 m1)
    `suffix_of` String.list_ascii_of_string (keySuffix i2 m2) ->
  i1 = i2 /\ m1 = m2.
Proof.
  destruct i1, m1, i2, m2; try (intros _; split; reflexivity);
    intros H; exfalso; revert H;
    apply (bool_decide_eq_false_1 _); vm_compute; reflexivity.
Qed.

(** X22. [cacheKey] is injective: two requests share a cache entry only if
    they agree on the symbol, the interval and the market type. *)
Theorem cacheKey_injective (s1 s2 : string) (i1 i2 : Timeframe)
  (m1 m2 : MarketType) :
  cacheKey s1 i1 m1 = cacheKey s2 i2 m2 -> s1 = s2 /\ i1 = i2 /\ m1 = m2.
Proof.
  intros H. apply (f_equal String.list_ascii_of_string) in H.
  rewrite !cacheKey_split in H.
  assert (Hsame : i1 = i2 /\ m1 = m2).
  { destruct (app_eq_inv _ _ _ _ H) as [(k & _ & Hk)|(k & _ & Hk)].
    - apply keySuffix_no_overlap. exists k. exact Hk.
    - symmetry in Hk.
      destruct (keySuffix_no_overlap i2 m2 i1 m1) as [-> ->]; [|auto].
      exists k. symmetry. exact Hk. }
  destruct Hsame as [-> ->]. split; [|auto].
  apply list_ascii_inj.
  apply (app_inj_2 _ _ _ _ eq_refl H).
Qed.

Lemma cacheKey_injective_witness :
  "BTC"%string = "BTC"%string /\ TF_1h = TF_1h /\ FUTURES = FUTURES.
Proof.
  apply (cacheKey_injective "BTC" "BTC" TF_1h TF_1h FUTURES FUTURES).
  reflexivity.
Defined.

(** ** The simulated history *)

Lemma up_pred (x : R) : up (x - 1) = (up x - 1)%Z.
Proof.
  symmetry. destruct (archimed x) as [Hgt Hle].
  apply tech_up; rewrite minus_IZR; lra.
Qed.

Lemma up_INR (n : nat) : up (INR n) = (Z.of_nat n + 1)%Z.
Proof.
  pose proof (Int_part_INR n) as H. unfold Int_part in H. lia.
Qed.

(** The fuel given by [generateHistoryOf] is never what stops the loop: with
    more fuel the result is the same. *)
Lemma historyLoop_fuel (fuel extra : nat) label random turn i p :
  (up i <= Z.of_nat fuel)%Z ->
  historyLoop (fuel + extra) label random turn i p
  = historyLoop fuel label random turn i p.
Proof.
  revert turn i p. induction fuel as [|fuel IH]; intros turn i p Hup.
  - assert (Hneg : i < 0).
    { destruct (archimed i) as [Hgt _].
      assert (H0 : (up i <= 0)%Z) by lia.
      apply IZR_le in H0. lra. }
    destruct extra as [|extra]; [reflexivity|].
    cbn [Nat.add historyLoop].
    rewrite (proj2 (rge_false i 0)) by exact Hneg. reflexivity.
  - cbn [Nat.add historyLoop].
    destruct (rge i 0); [|reflexivity].
    cbv zeta. f_equal. apply IH. rewrite up_pred. lia.
Qed.

Lemma historyLoop_length (n fuel : nat) label random turn p :
  (n < fuel)%nat ->
  length (historyLoop fuel label random turn (INR n) p) = S n.
Proof.
  revert fuel turn p. induction n as [|n IH]; intros fuel turn p Hf.
  - destruct fuel as [|fuel]; [lia|].
    cbn [historyLoop INR].
    rewrite (proj2 (rge_true 0 0)) by lra.
    cbv zeta. cbn [length]. f_equal.
    destruct fuel as [|fuel]; [reflexivity|].
    cbn [historyLoop].
    rewrite (proj2 (rge_false (0 - 1) 0)) by lra. reflexivity.
  - destruct fuel as [|fuel]; [lia|].
    cbn [historyLoop].
    rewrite (proj2 (rge_true (INR (S n)) 0))
      by (apply Rle_ge, pos_INR).
    cbv zeta. cbn [length]. f_equal.
    replace (INR (S n) - 1) with (INR n) by (rewrite S_INR; lra).
    apply IH. lia.
Qed.

Lemma generateHistory_length_aux (label : R -> string) (random : nat -> R)
  (basePrice days : R) (n : nat) :
  days * 24 = INR n ->
  length (generateHistoryOf label random basePrice days) = S n.
Proof.
  intros Hn. unfold generateHistoryOf. rewrite Hn, up_INR.
  apply historyLoop_length. lia.
Qed.

(** X23. [generateHistory] returns one bar more than the hours asked for:
    when [days * 24] is the whole number [n], the series has [n + 1] bars
    (the loop runs from [n] down to 0 included), so it is never empty. *)
Theorem generateHistory_length (label : R -> string) (random : nat -> R)
  (basePrice days : R) (n : nat) :
  days * 24 = INR n ->
  length (generateHistoryOf label random basePrice days) = S n.
Proof.
  intros Hn.
  pose proof (historyLoop_length n (S n) label random 0 basePrice) as Hlen.
  unfold generateHistoryOf. rewrite Hn, up_INR.
  replace (Z.to_nat (Z.of_nat n + 1)) with (S n) by lia.
  apply Hlen. lia.
Qed.

Lemma generateHistory_length_witness :
  length (generateHistoryOf (fun _ => "t"%string) noRandom 100 (INR 200 / 24))
  = 201%nat.
Proof.
  apply (generateHistory_length (fun _ => "t"%string) noRandom 100
           (INR 200 / 24) 200).
  field.
Defined.

(** X24. Every bar of [generateHistory] is a well-formed candle: it carries a
    high, a low and a volume, its close lies between its low and its high, and
    it has no derived field yet. *)
Theorem generateHistory_bars (label : R -> string) (random : nat -> R)
  (basePrice days : R) :
  Forall (fun p =>
            exists h l v,
              high p = Some h /\ low p = Some l /\ volume p = Some v
              /\ l <= price p <= h
              /\ sma20 p = None /\ sma50 p = None
              /\ bollingerUpper p = None /\ bollingerLower p = None)
         (generateHistoryOf label random basePrice days).
Proof.
  unfold generateHistoryOf.
  generalize (Z.to_nat (up (days * 24))) as fuel.
  generalize 0%nat as turn. generalize (days * 24) as i.
  generalize basePrice as p.
  intros p i turn fuel. revert p i turn.
  induction fuel as [|fuel IH]; intros p i turn; [constructor|].
  cbn [historyLoop]. destruct (rge i 0); [|constructor].
  cbv zeta. constructor; [|apply IH].
  eexists _, _, _. cbn [high low volume price sma20 sma50 bollingerUpper
                        bollingerLower].
  repeat split; try reflexivity.
  - apply Rmin_r.
  - apply Rbasic_fun.Rmax_r.
Qed.

Lemma historyLoop_walk (fuel : nat) label random turn i p :
  (forall k, 0 <= random k < 1) -> 0 < p ->
  Forall (fun q => 0 < price q) (historyLoop fuel label random turn i p)
  /\ (forall a, historyLoop fuel label random turn i p !! 0%nat = Some a ->
        0.98 * p <= price a < 1.02 * p)
  /\ (forall k a b,
        historyLoop fuel label random turn i p !! k = Some a ->
        historyLoop fuel label random turn i p !! S k = Some b ->
        0.98 * price a <= price b < 1.02 * price a).
Proof.
  intros Hr. revert turn i p.
  induction fuel as [|fuel IH]; intros turn i p Hp.
  - cbn [historyLoop]. repeat split; try constructor; intros; discriminate.
  - cbn [historyLoop]. destruct (rge i 0).
    2:{ repeat split; try constructor; intros; discriminate. }
    cbv zeta.
    set (change := 1 + (random (4 * turn)%nat * 0.02 * 2 - 0.02)).
    assert (Hc : 0.98 <= change < 1.02).
    { subst change. pose proof (Hr (4 * turn)%nat). lra. }
    assert (Hp' : 0 < p * change) by (apply Rmult_lt_0_compat; lra).
    destruct (IH (S turn) (i - 1) (p * change) Hp') as (Hall & Hfirst & Hadj).
    split; [|split].
    + constructor; [exact Hp' | exact Hall].
    + intros a [= <-]. cbn [price]. nra.
    + intros k a b Ha Hb. destruct k as [|k].
      * injection Ha as <-. cbn [price]. apply Hfirst. exact Hb.
      * apply (Hadj k a b); assumption.
Qed.

(** X25. With [Math.random()] in [[0,1)] and a positive base price, the
    simulated closes stay positive and move by less than 2 percent per bar:
    the first close lies within 2 percent of the base price and every other
    close within 2 percent of the close before it. *)
Theorem generateHistory_walk (label : R -> string) (random : nat -> R)
  (basePrice days : R) :
  (forall k, 0 <= random k < 1) ->
  0 < basePrice ->
  let bars := generateHistoryOf label random basePrice days in
  Forall (fun q => 0 < price q) bars
  /\ (forall a, bars !! 0%nat = Some a ->
        0.98 * basePrice <= price a < 1.02 * basePrice)
  /\ (forall k a b, bars !! k = Some a -> bars !! S k = Some b ->
        0.98 * price a <= price b < 1.02 * price a).
Proof.
  intros Hr Hp bars. subst bars. unfold generateHistoryOf.
  apply historyLoop_walk; assumption.
Qed.

Lemma generateHistory_walk_witness :
  Forall (fun q => 0 < price q)
         (generateHistoryOf (fun _ => "t"%string) noRandom 100 (INR 200 / 24)).
Proof.
  apply (generateHistory_walk (fun _ => "t"%string) noRandom 100
           (INR 200 / 24)).
  - intros k. unfold noRandom. lra.
  - lra.
Defined.

Lemma basePrice_positive (k : string) :
  0 < orElse (assoc k basePriceMap) 100.
Proof.
  unfold basePriceMap. cbn [assoc].
  repeat match goal with
  | |- context [String.eqb ?a ?b] => destruct (String.eqb a b)
  end; cbn [orElse]; cmp_cases; lra.
Qed.

Lemma enrich_prices_positive (s : list ChartDataPoint) :
  Forall (fun p => 0 < price p) s ->
  Forall (fun p => 0 < price p) (enrichDataWithIndicators s).
Proof.
  intros H.
  apply (Forall_fmap price (fun x => 0 < x)). rewrite enrich_prices.
  apply Forall_fmap. exact H.
Qed.

(** X26. The fallback of [fetchCryptoData]: when the request fails, the call
    still returns a series, built by [generateHistory] from a positive base
    price; it has [limit + 1] candles (201 for the dashboard's limit of 200),
    all with positive closes when [Math.random()] is in [[0,1)], and it is not
    written to the cache. *)
Theorem fetch_fallback_series
  (fetch_ : Z -> Request -> option (list ChartDataPoint))
  (toUpperCase_ : string -> string) (label : Z -> R -> string)
  (random : Z -> nat -> R)
  (symbol : string) (interval : Timeframe) (limit : nat)
  (marketType : MarketType) (now : Z) (w : World) :
  let env := simulatedEnv fetch_ toUpperCase_ label random in
  cacheHit w (cacheKey symbol interval marketType) now = None ->
  fetch_ now (requestFor env symbol interval limit marketType) = None ->
  (forall k, 0 <= random now k < 1) ->
  let out := fetchCryptoData env symbol interval limit marketType now w in
  length out.1 = S limit
  /\ Forall (fun p => 0 < price p) out.1
  /\ DATA_CACHE out.2 = DATA_CACHE w.
Proof.
  intros env Hmiss Hfail Hr out. subst out.
  destruct (fetch_cases env symbol interval limit marketType now w)
    as [(e & He & Hage & _)|[(rows & _ & Hrows & _)|(_ & _ & H1 & H2)]].
  - assert (cacheHit w (cacheKey symbol interval marketType) now = Some e)
      by (apply cacheHit_Some; auto).
    congruence.
  - cbn [env simulatedEnv fetch] in Hrows. congruence.
  - rewrite H1, H2. cbn [DATA_CACHE env simulatedEnv generateHistory toUpperCase].
    split; [|split; [|reflexivity]].
    + rewrite enrich_length.
      apply generateHistory_length_aux. field.
    + apply enrich_prices_positive.
      apply historyLoop_walk; [exact Hr | apply basePrice_positive].
Qed.

Lemma fetch_fallback_series_witness :
  length (fetchCryptoData
            (simulatedEnv (fun _ _ => None) (fun s => s)
               (fun _ _ => "t"%string) (fun _ _ => 0))
            "BTC" TF_1h 200 FUTURES 0 (mkWorld ∅ [])).1
  = 201%nat.
Proof.
  apply (fetch_fallback_series (fun _ _ => None) (fun s => s)
           (fun _ _ => "t"%string) (fun _ _ => 0)
           "BTC" TF_1h 200 FUTURES 0 (mkWorld ∅ [])).
  - apply cacheHit_None. left. apply lookup_empty.
  - reflexivity.
  - intros k. lra.
Defined.

(** ** The simulated order book *)

Lemma fetchMarketDepth_levels (currentPrice : R) (random : nat -> R) :
  fetchMarketDepth currentPrice random
  = ((fun i => mkDepthItem (currentPrice * (1 - 0.001 * (INR i + 1)))
                           (random (2 * i)%nat * 10) 0 bid) <$> seq 0 5,
     (fun i => mkDepthItem (currentPrice * (1 + 0.001 * (INR i + 1)))
                           (random (2 * i + 1)%nat * 10) 0 ask) <$> seq 0 5).
Proof. reflexivity. Qed.

(** X27. The simulated order book has five bids and five asks; for a
    positive price every bid is below it and every ask above it, and both
    sides move away from the price as the level grows; with [Math.random()]
    in [[0,1)] every amount is in [[0,10)]. *)
Theorem fetchMarketDepth_book (currentPrice : R) (random : nat -> R) :
  0 < currentPrice ->
  (forall k, 0 <= random k < 1) ->
  let book := fetchMarketDepth currentPrice random in
  length book.1 = 5%nat /\ length book.2 = 5%nat
  /\ (forall i b a, book.1 !! i = Some b -> book.2 !! i = Some a ->
        depth_price b < currentPrice < depth_price a
        /\ depth_type b = bid /\ depth_type a = ask
        /\ 0 <= amount b < 10 /\ 0 <= amount a < 10)
  /\ (forall i j b b' a a', (i < j)%nat ->
        book.1 !! i = Some b -> book.1 !! j = Some b' ->
        book.2 !! i = Some a -> book.2 !! j = Some a' ->
        depth_price b' < depth_price b /\ depth_price a < depth_price a').
Proof.
  intros Hp Hr book. subst book. rewrite fetchMarketDepth_levels.
  cbn [fst snd]. rewrite !length_fmap, length_seq.
  split; [reflexivity|]. split; [reflexivity|]. split.
  - intros i b a Hb Ha.
    rewrite list_lookup_fmap in Hb, Ha.
    destruct (seq 0 5 !! i) as [i'|] eqn:Hi; [|discriminate].
    apply lookup_seq in Hi as [-> _]. rewrite Nat.add_0_l in Hb, Ha.
    cbn [fmap option_fmap option_map] in Hb, Ha.
    assert (Eb : b = mkDepthItem (currentPrice * (1 - 0.001 * (INR i + 1)))
                       (random (2 * i)%nat * 10) 0 bid) by congruence.
    assert (Ea : a = mkDepthItem (currentPrice * (1 + 0.001 * (INR i + 1)))
                       (random (2 * i + 1)%nat * 10) 0 ask) by congruence.
    subst a b. cbn [depth_price depth_type amount].
    pose proof (pos_INR i).
    pose proof (Hr (2 * i)%nat). pose proof (Hr (2 * i + 1)%nat).
    repeat split; try reflexivity; try nra; lra.
  - intros i j b b' a a' Hij Hb Hb' Ha Ha'.
    rewrite list_lookup_fmap in Hb, Hb', Ha, Ha'.
    destruct (seq 0 5 !! i) as [i'|] eqn:Hi; [|discriminate].
    destruct (seq 0 5 !! j) as [j'|] eqn:Hj; [|discriminate].
    apply lookup_seq in Hi as [-> _]. apply lookup_seq in Hj as [-> _].
    rewrite Nat.add_0_l in Hb, Hb', Ha, Ha'.
    cbn [fmap option_fmap option_map] in Hb, Hb', Ha, Ha'.
    assert (Eb : depth_price b = currentPrice * (1 - 0.001 * (INR i + 1)))
      by (injection Hb as <-; reflexivity).
    assert (Eb' : depth_price b' = currentPrice * (1 - 0.001 * (INR j + 1)))
      by (injection Hb' as <-; reflexivity).
    assert (Ea : depth_price a = currentPrice * (1 + 0.001 * (INR i + 1)))
      by (injection Ha as <-; reflexivity).
    assert (Ea' : depth_price a' = currentPrice * (1 + 0.001 * (INR j + 1)))
      by (injection Ha' as <-; reflexivity).
    rewrite Eb, Eb', Ea, Ea'.
    assert (INR i < INR j) by (apply lt_INR; lia).
    split; nra.
Qed.

Lemma fetchMarketDepth_book_witness :
  length (fetchMarketDepth 100 noRandom).1 = 5%nat.
Proof.
  apply (fetchMarketDepth_book 100 noRandom).
  - lra.
  - intros k. unfold noRandom. lra.
Defined.

(** ** The dashboard as a state machine *)

Lemma onmessage_cases formatDate msg random randoms st :
  onmessage formatDate msg random randoms st = (st, [])
  \/ (history st <> []
      /\ let merged :=
           enrichDataWithIndicators
             (updateOrAppend (history st) (formatDate (k_t (msg_k msg)))
                (msg_k msg)) in
         onmessage formatDate msg random randoms st
         = ({| history := merged;
               indicators := Some (performTechnicalAnalysis merged);
               mlPrediction :=
                 Some (predictSignalXGBoost (performTechnicalAnalysis merged)
                         (price (pointAt merged (length merged - 1))) random);
               backtestResult := Some (runBacktest merged 10000 randoms) |},
            [Enrichment; Snapshot; Prediction; BacktestRun])).
Proof.
  unfold onmessage.
  destruct (String.eqb (msg_e msg) "kline"); [|left; reflexivity].
  destruct (length (history st) =? 0)%nat eqn:E; [left; reflexivity|].
  right. split; [|reflexivity].
  intros Hnil. rewrite Hnil in E. discriminate.
Qed.

Lemma updateOrAppend_grows prev label k :
  prev <> [] -> (length prev <= length (updateOrAppend prev label k))%nat.
Proof.
  intros Hne. rewrite updateOrAppend_length by exact Hne.
  destruct (String.eqb _ label); [lia|].
  destruct (length prev <? 200)%nat; lia.
Qed.

(** X28. What the dashboard publishes always belongs to the history it
    stores.  Starting from the empty dashboard, after any sequence of loads
    ([updateMarketData], imported or fetched) and streaming ticks
    ([ws.onmessage]), either nothing is stored, or the stored history has
    more than 50 candles and the indicators, the prediction and the backtest
    result are the ones computed from exactly that history. *)
Theorem dashboard_publishes_its_history :
  published emptyDashboard
  /\ (forall env customData symbol timeframe now random randoms w st,
        published st ->
        published (updateMarketData env customData symbol timeframe now
                     random randoms w st).1)
  /\ (forall formatDate msg random randoms st,
        published st ->
        published (onmessage formatDate msg random randoms st).1).
Proof.
  split; [left; reflexivity|]. split.
  - intros env customData symbol timeframe now random randoms w st Hst.
    unfold updateMarketData.
    set (loaded := match customData with
                   | Some imported => (imported, w)
                   | None => fetchCryptoData env symbol timeframe 200 FUTURES
                               now w
                   end).
    destruct (50 <? length loaded.1)%nat eqn:E; [|exact Hst].
    apply Nat.ltb_lt in E. right. cbn [fst history indicators mlPrediction
                                        backtestResult].
    split; [exact E|]. split; [reflexivity|]. split; eexists; reflexivity.
  - intros formatDate msg random randoms st Hst.
    destruct (onmessage_cases formatDate msg random randoms st)
      as [-> | [Hne ->]]; [exact Hst|].
    destruct Hst as [-> | (Hlen & _)]; [contradiction|].
    right. cbn [fst history indicators mlPrediction backtestResult].
    split.
    + rewrite enrich_length.
      pose proof (updateOrAppend_grows (history st)
                    (formatDate (k_t (msg_k msg))) (msg_k msg) Hne). lia.
    + split; [reflexivity|]. split; eexists; reflexivity.
Qed.

Lemma dashboard_publishes_its_history_witness :
  history loadedDashboard = imported51
  /\ indicators loadedDashboard = Some (performTechnicalAnalysis imported51)
  /\ published loadedDashboard
  /\ length (history (onmessage (labelled "b") tick 0%R noRandom
                        loadedDashboard).1) = 52%nat
  /\ published (onmessage (labelled "b") tick 0%R noRandom loadedDashboard).1.
Proof.
  assert (Hload : published loadedDashboard).
  { apply (proj1 (proj2 dashboard_publishes_its_history)).
    apply (proj1 dashboard_publishes_its_history). }
  split; [reflexivity|]. split; [reflexivity|]. split; [exact Hload|].
  split.
  - unfold onmessage. cbn [msg_e tick String.eqb Ascii.eqb Bool.eqb].
    cbn [fst history]. rewrite enrich_length. reflexivity.
  - apply (proj2 (proj2 dashboard_publishes_its_history)). exact Hload.
Defined.

(** X29. A streaming tick never shortens the stored history, and after a
    kline tick on a non-empty history the stored series is an enriched one
    (enriching it again changes nothing). *)
Theorem tick_keeps_history formatDate msg random randoms st :
  let st' := (onmessage formatDate msg random randoms st).1 in
  (length (history st) <= length (history st'))%nat
  /\ (msg_e msg = "kline"%string -> history st <> [] ->
      enrichDataWithIndicators (history st') = history st').
Proof.
  intros st'. subst st'.
  destruct (onmessage_cases formatDate msg random randoms st)
    as [Hsame | [Hne Hrun]].
  - split; [rewrite Hsame; cbn [fst]; lia|].
    intros He Hne. exfalso. revert Hsame. unfold onmessage.
    rewrite (proj2 (String.eqb_eq _ _) He).
    destruct (length (history st) =? 0)%nat eqn:E; [|discriminate].
    apply Nat.eqb_eq in E. destruct (history st); [contradiction|discriminate].
  - rewrite Hrun. cbn [fst history]. split.
    + rewrite enrich_length. apply updateOrAppend_grows, Hne.
    + intros _ _. apply enrich_twice.
Qed.

Lemma tick_keeps_history_witness :
  enrichDataWithIndicators
    (history (onmessage (labelled "c") tick 0%R noRandom three).1)
  = history (onmessage (labelled "c") tick 0%R noRandom three).1.
Proof.
  apply (tick_keeps_history (labelled "c") tick 0%R noRandom three).
  - reflexivity.
  - discriminate.
Defined.

Lemma fetch_fallback_length
  (fetch_ : Z -> Request -> option (list ChartDataPoint))
  (toUpperCase_ : string -> string) (label : Z -> R -> string)
  (random : Z -> nat -> R)
  (symbol : string) (interval : Timeframe) (limit : nat)
  (marketType : MarketType) (now : Z) (w : World) :
  let env := simulatedEnv fetch_ toUpperCase_ label random in
  cacheHit w (cacheKey symbol interval marketType) now = None ->
  fetch_ now (requestFor env symbol interval limit marketType) = None ->
  length (fetchCryptoData env symbol interval limit marketType now w).1
  = S limit.
Proof.
  intros env Hmiss Hfail.
  destruct (fetch_cases env symbol interval limit marketType now w)
    as [(e & He & Hage & _)|[(rows & _ & Hrows & _)|(_ & _ & H1 & _)]].
  - assert (cacheHit w (cacheKey symbol interval marketType) now = Some e)
      by (apply cacheHit_Some; auto).
    congruence.
  - cbn [env simulatedEnv fetch] in Hrows. congruence.
  - rewrite H1, enrich_length.
    cbn [env simulatedEnv generateHistory].
    apply generateHistory_length_aux. field.
Qed.

(** X30. A dashboard loaded from the simulated fallback streams over 201
    candles: when the load finds no fresh cache entry and its request fails,
    the stored history has 201 candles, and it still has 201 after any
    streaming tick (an update in place keeps the length, an append makes 202
    and drops one). *)
Theorem fallback_window_is_201
  (fetch_ : Z -> Request -> option (list ChartDataPoint))
  (toUpperCase_ : string -> string) (label : Z -> R -> string)
  (random : Z -> nat -> R)
  (symbol : string) (timeframe : Timeframe) (now : Z)
  (rnd : R) (rnds : nat -> R) (w : World) (st : Dashboard) :
  let env := simulatedEnv fetch_ toUpperCase_ label random in
  cacheHit w (cacheKey symbol timeframe FUTURES) now = None ->
  fetch_ now (requestFor env symbol timeframe 200 FUTURES) = None ->
  let loaded :=
    (updateMarketData env None symbol timeframe now rnd rnds w st).1 in
  length (history loaded) = 201%nat
  /\ (forall formatDate msg rnd' rnds',
        length (history (onmessage formatDate msg rnd' rnds' loaded).1)
        = 201%nat).
Proof.
  intros env Hmiss Hfail loaded.
  assert (Hlen : length (history loaded) = 201%nat).
  { subst loaded. unfold updateMarketData.
    pose proof (fetch_fallback_length fetch_ toUpperCase_ label random symbol
                  timeframe 200 FUTURES now w Hmiss Hfail) as H.
    fold env in H. rewrite H. cbn [Nat.ltb Nat.leb fst history]. exact H. }
  split; [exact Hlen|].
  intros formatDate msg rnd' rnds'.
  destruct (onmessage_cases formatDate msg rnd' rnds' loaded)
    as [-> | [Hne ->]]; [exact Hlen|].
  cbn [fst history].
  rewrite enrich_length, updateOrAppend_length by exact Hne.
  rewrite Hlen.
  destruct (String.eqb _ _); reflexivity.
Qed.

Lemma fallback_window_is_201_witness :
  length (history
            (updateMarketData
               (simulatedEnv (fun _ _ => None) (fun s => s)
                  (fun _ _ => "t"%string) (fun _ _ => 0))
               None "BTC" TF_1h 0 0 noRandom (mkWorld ∅ []) emptyDashboard).1)
  = 201%nat.
Proof.
  apply (fallback_window_is_201 (fun _ _ => None) (fun s => s)
           (fun _ _ => "t"%string) (fun _ _ => 0)
           "BTC" TF_1h 0 0 noRandom (mkWorld ∅ []) emptyDashboard).
  - apply cacheHit_None. left. apply lookup_empty.
  - reflexivity.
Defined.
